(** * pycarddav: the CardDAV client of [pycarddav/carddav.py]

    A shallow embedding of the module's functions and the properties the
    specification states about them.  The file follows the source top
    down: the identifier generator [get_random_href], the exceptions, the
    [PyCardDAV] class with its write operations, the PROPFIND request and
    the parser of the multi-status document. *)

From Stdlib Require Import ZArith Ascii String List Lia.
From stdpp Require Import gmap strings list fin_maps.

Open Scope string_scope.
Open Scope Z_scope.

(** ** Python values used by the module *)

(** A Python value that is either [None] or a [str]. *)
Abbreviation pystr := (option string).

(** *** [str.format] with the [x] presentation type

    ["{0:x}".format(n)]: lowercase hexadecimal, no prefix, no padding, a
    minus sign in front of a negative number. *)

Definition hex_digit (d : Z) : ascii :=
  if d <? 10 then ascii_of_nat (48 + Z.to_nat d)
  else ascii_of_nat (87 + Z.to_nat d).

Fixpoint format_x_digits (fuel : nat) (n : Z) (acc : string) : string :=
  let acc' := String (hex_digit (n mod 16)) acc in
  match fuel with
  | O => acc'
  | S fuel' => if n / 16 =? 0 then acc' else format_x_digits fuel' (n / 16) acc'
  end.

Definition format_x (n : Z) : string :=
  if n <? 0 then String "-" (format_x_digits (Z.to_nat (Z.log2 (- n))) (- n) "")
  else format_x_digits (Z.to_nat (Z.log2 n)) n "".

(** The number a string of hexadecimal digits denotes; the inverse of
    [format_x] on the naturals. *)
Definition hex_digit_value (c : ascii) : Z :=
  let k := Z.of_nat (nat_of_ascii c) in
  if k <? 58 then k - 48 else k - 87.

Fixpoint hex_value_from (acc : Z) (s : string) : Z :=
  match s with
  | EmptyString => acc
  | String c s' => hex_value_from (16 * acc + hex_digit_value c) s'
  end.

Definition hex_value (s : string) : Z := hex_value_from 0 s.

(** *** [str.join] and [str.upper] *)

Fixpoint join (sep : string) (l : list string) : string :=
  match l with
  | [] => ""
  | [x] => x
  | x :: xs => x +:+ sep +:+ join sep xs
  end.

Definition upper_ascii (c : ascii) : ascii :=
  let n := nat_of_ascii c in
  if ((97 <=? n) && (n <=? 122))%nat then ascii_of_nat (n - 32) else c.

Fixpoint upper (s : string) : string :=
  match s with
  | EmptyString => EmptyString
  | String c s' => String (upper_ascii c) (upper s')
  end.

Definition lower_ascii (c : ascii) : ascii :=
  let n := nat_of_ascii c in
  if ((65 <=? n) && (n <=? 90))%nat then ascii_of_nat (n + 32) else c.

Fixpoint lower (s : string) : string :=
  match s with
  | EmptyString => EmptyString
  | String c s' => String (lower_ascii c) (lower s')
  end.

(** ** The identifier generator *)

Module Href.

Section Generator.
(** The state of the [random] module and its [randint a b], which draws
    an integer [N] with [a <= N <= b]. *)
Context {G : Type}.
Variable randint : Z -> Z -> G -> Z * G.

(** The [for _ in xrange(3)] loop: one draw per round, its rendering
    appended to [tmp_list]. *)
Fixpoint draw_loop (rounds : nat) (tmp_list : list string) (g : G)
  : list string * G :=
  match rounds with
  | O => (tmp_list, g)
  | S rounds' =>
      let (rand_number, g') := randint 0 0x100000000 g in
      draw_loop rounds' (tmp_list ++ [format_x rand_number]) g'
  end.

Definition get_random_href (g : G) : string * G :=
  let (tmp_list, g') := draw_loop 3 [] g in
  (upper (join "-" tmp_list), g').

(** The three numbers one call draws, in order. *)
Definition draws (g : G) : Z * Z * Z :=
  let (a, g1) := randint 0 0x100000000 g in
  let (b, g2) := randint 0 0x100000000 g1 in
  let (c, _) := randint 0 0x100000000 g2 in
  (a, b, c).

(** The state of the generator after [n] calls, and the token the next
    call returns then. *)
Fixpoint after (n : nat) (g : G) : G :=
  match n with
  | O => g
  | S n' => after n' (snd (get_random_href g))
  end.

Definition nth_href (n : nat) (g : G) : string :=
  fst (get_random_href (after n g)).

End Generator.

(** A generator to run the code on: a linear congruential one, scaled into
    the requested interval. *)
Definition lcg_next (g : Z) : Z := (1103515245 * g + 12345) mod 2147483648.

Definition lcg_randint (a b : Z) (g : Z) : Z * Z :=
  (a + g mod (b - a + 1), lcg_next g).

End Href.

(** ** lxml element trees *)

(** What the module reads of an [lxml.etree] element: [tag] in Clark
    notation (["{DAV:}href"]), [text] ([None] when the element has no
    leading text, as for [<getetag/>]) and [iterchildren()], the child
    nodes in document order.  A comment or processing instruction is a
    node without children whose tag equals no string the module compares
    with. *)
#[warnings="-register-all"]
Inductive element : Type :=
  Element { tag : string; text : pystr; children : list element }.

(** ** Exceptions raised by the module and its collaborators *)

Inductive transport_error : Type := SSLError | ConnectionError.

Inductive exn : Type :=
| SystemExit (code : Z)                       (* [sys.exit(code)] *)
| UploadFailed (reason : string)
| Exception (reason : string) (content : string)
| XMLSyntaxError (message : string)           (* lxml's [ParseError] *)
| UnboundLocalError (name : string)
| RequestException (e : transport_error).

(** ** The parser of the PROPFIND answer *)

Module Props.

Definition namespace : string := "{DAV:}".

(** The local variables of the loop over one [response] element together
    with the dictionary under construction. *)
Record locals : Type := Locals {
  href : pystr;
  etag : pystr;
  insert : bool;
  abook : gmap pystr pystr
}.

Definition pystr_eqb (a : pystr) (b : string) : bool :=
  match a with
  | Some s => String.eqb s b
  | None => false
  end.

(** The body of [for props in prop.iterchildren()]. *)
Definition props_body (l : locals) (props : element) : locals :=
  let l1 :=
    if String.eqb (tag props) (namespace +:+ "getcontenttype")
       && (pystr_eqb (text props) "text/vcard"
           || pystr_eqb (text props) "text/x-vcard")
    then Locals (href l) (etag l) true (abook l)
    else l in
  if String.eqb (tag props) (namespace +:+ "getetag")
  then Locals (href l1) (text props) (insert l1) (abook l1)
  else l1.

(** The body of [for prop in refprop.iterchildren()]: the inner loop, then
    [if insert: abook[href] = etag]. *)
Definition prop_body (l : locals) (prop : element) : locals :=
  let l1 := fold_left props_body (children prop) l in
  if insert l1
  then Locals (href l1) (etag l1) (insert l1) (<[href l1 := etag l1]> (abook l1))
  else l1.

(** The body of [for refprop in response.iterchildren()]. *)
Definition refprop_body (l : locals) (refprop : element) : locals :=
  let l1 :=
    if String.eqb (tag refprop) (namespace +:+ "href")
    then Locals (text refprop) (etag l) (insert l) (abook l)
    else l in
  fold_left prop_body (children refprop) l1.

(** The body of [for response in element.iterchildren()]. *)
Definition response_body (abook0 : gmap pystr pystr) (response : element)
  : gmap pystr pystr :=
  if String.eqb (tag response) (namespace +:+ "response")
  then abook (fold_left refprop_body (children response)
                (Locals (Some "") (Some "") false abook0))
  else abook0.

(** [_process_xml_props] after [element = ET.XML(xml)]. *)
Definition process_element (element : element) : gmap pystr pystr :=
  fold_left response_body (children element) ∅.

(** *** Vocabulary of the specification *)

(** The properties of a resource: the nodes three levels below its
    [response] element, in document order
    ([response -> propstat -> prop -> property]). *)
Definition properties (response : element) : list element :=
  flat_map (fun refprop => flat_map children (children refprop))
           (children response).

Definition is_vcard_type (props : element) : bool :=
  String.eqb (tag props) "{DAV:}getcontenttype"
  && (pystr_eqb (text props) "text/vcard"
      || pystr_eqb (text props) "text/x-vcard").

Definition is_getetag (props : element) : bool :=
  String.eqb (tag props) "{DAV:}getetag".

Definition is_response (e : element) : bool :=
  String.eqb (tag e) "{DAV:}response".

Definition is_href (e : element) : bool :=
  String.eqb (tag e) "{DAV:}href".

(** A resource qualifies when one of its properties is a DAV
    [getcontenttype] whose text is a vCard type. *)
Definition qualifies (response : element) : bool :=
  existsb is_vcard_type (properties response).

(** The text of the last [getetag] among the properties, [dflt] when
    there is none. *)
Definition last_getetag (dflt : pystr) (l : list element) : pystr :=
  fold_left (fun acc p => if is_getetag p then text p else acc) l dflt.

(** What one child of the root writes, seen on its own. *)
Definition contribution (response : element) : gmap pystr pystr :=
  response_body ∅ response.

(** *** Invariants of the loops *)

(** Two runs that differ in the dictionary they started from. *)
Definition over (m : gmap pystr pystr) (l t : locals) : Prop :=
  href l = href t /\ etag l = etag t /\ insert l = insert t
  /\ abook l = abook t ∪ m.

(** An entry has been written exactly when [insert] is up. *)
Definition written (l : locals) : Prop :=
  (insert l = false /\ abook l = ∅)
  \/ (insert l = true /\ abook l <> ∅).

(** The entry of the resource sits under [k] on top of [m], with the
    marker seen so far. *)
Definition entry_at (m : gmap pystr pystr) (k : pystr) (l : locals) : Prop :=
  href l = k
  /\ abook l = (if insert l then <[k := etag l]> m else m).

End Props.

(** ** HTTP as the module sees it *)

Inductive method : Type := GET | PUT | DELETE | PROPFIND | OPTIONS.

(** A request handed to [requests]: method, URL, the header dictionary,
    the body ([data=]) and the keyword arguments of [self._settings]. *)
Record request : Type := Request {
  meth : method;
  url : string;
  req_headers : gmap string string;
  data : pystr;
  auth : string * string;
  verify : bool
}.

(** The attributes of a [requests] response the module reads.  The header
    names are kept as the server sent them. *)
Record response : Type := Response {
  ok : bool;
  reason : string;
  resp_headers : list (string * string);
  content : string
}.

(** [response.headers[name]]: the lookup ignores case, and a header that
    is absent reads as [None]; the module relies on this
    ([... is None], [except AttributeError]). *)
Fixpoint header_get (headers : list (string * string)) (name : string) : pystr :=
  match headers with
  | [] => None
  | (k, v) :: rest =>
      if String.eqb (lower k) (lower name) then Some v else header_get rest name
  end.

(** [s.count(sub)]: the number of occurrences of [sub] in [s] that do not
    overlap, found from the left. *)
Fixpoint count_from (sub : string) (skip : nat) (s : string) : Z :=
  match s with
  | EmptyString => 0
  | String _ s' =>
      match skip with
      | S skip' => count_from sub skip' s'
      | O =>
          if String.prefix sub s
          then 1 + count_from sub (String.length sub - 1) s'
          else count_from sub 0 s'
      end
  end.

Definition count (s sub : string) : Z :=
  match sub with
  | EmptyString => Z.of_nat (String.length s) + 1
  | _ => count_from sub 0 s
  end.

(** [sub] occurs in [s]. *)
Definition contains (s sub : string) : Prop :=
  exists pre post, s = pre +:+ sub +:+ post.

(** The six components [urlparse.urlparse] returns. *)
Record ParseResult : Type := {
  scheme : string;
  netloc : string;
  path : string;
  params : string;
  query : string;
  fragment : string
}.

(** ** The collaborators of the client

    The server behind [requests], the [random] module, [lxml.etree.XML]
    and [urlparse.urlparse] are not part of the module; the client is
    written against this interface. *)
Class Collaborators : Type := {
  Server : Type;
  handle : request -> Server -> (transport_error + response) * Server;
  Random : Type;
  randint : Z -> Z -> Random -> Z * Random;
  XML : string -> string + element;
  urlparse : string -> ParseResult
}.

(** ** Effects: the world the client runs in *)

Inductive event : Type :=
| Sent (rq : request) (answer : transport_error + response)
| XMLCalled (xml : string)
| StderrWrite (s : string)
| Printed (s : string).

Record world `{Collaborators} : Type := World {
  server : Server;
  random : Random;
  events : list event
}.

Arguments World {_} _ _ _.

Section Monad.
Context `{Collaborators}.

(** A computation either raises or returns, and leaves a world. *)
Definition M (A : Type) : Type := world -> (exn + A) * world.

Definition ret {A} (a : A) : M A := fun w => (inr a, w).

Definition raise {A} (e : exn) : M A := fun w => (inl e, w).

Definition bind {A B} (m : M A) (k : A -> M B) : M B :=
  fun w =>
    match m w with
    | (inl e, w') => (inl e, w')
    | (inr a, w') => k a w'
    end.

Definition emit (ev : event) : M unit :=
  fun w => (inr tt, World (server w) (random w) (events w ++ [ev])).

(** One round trip through [requests]. *)
Definition send (rq : request) : M response :=
  fun w =>
    let (answer, sv) := handle rq (server w) in
    let w' := World sv (random w) (events w ++ [Sent rq answer]) in
    match answer with
    | inl e => (inl (RequestException e), w')
    | inr rs => (inr rs, w')
    end.

Definition get_random_href : M string :=
  fun w =>
    let (s, g) := Href.get_random_href randint (random w) in
    (inr s, World (server w) g (events w)).

End Monad.

Notation "'do' x <- m ; k" := (bind m (fun x => k))
  (at level 10, x name, m at level 99, k at level 200).
Notation "m ;; k" := (bind m (fun _ => k))
  (at level 100, k at level 200, right associativity).

(** A [for] loop whose body may [return]: the body yields [inl r] to
    return [r] from the function, [inr s] to go on with the locals [s]. *)
Fixpoint for_each `{Collaborators} {A S R : Type}
    (items : list A) (body : A -> S -> M (R + S)) (s : S) : M (R + S) :=
  match items with
  | [] => ret (inr s)
  | x :: rest =>
      do r <- body x s;
      match r with
      | inl v => ret (inl v)
      | inr s' => for_each rest body s'
      end
  end.

(** ** The class [PyCardDAV] *)

Module PyCardDAV.

(** The attributes [__init__] sets: [url] (a named tuple of [resource],
    [base] and [path]), [debug], [write_support], [_settings] and
    [_default_headers]. *)
Record t : Type := Self {
  url_resource : string;
  url_base : string;
  url_path : string;
  debug : string;
  write_support : bool;
  settings_auth : string * string;
  settings_verify : bool;
  default_headers : gmap string string
}.

Section Methods.
Context `{Collaborators}.

Definition init (resource debug user passwd : string)
    (verify write_support : bool) : t :=
  let split_url := urlparse resource in
  Self resource
       (scheme split_url +:+ "://" +:+ netloc split_url)
       (path split_url)
       debug write_support (user, passwd) verify
       {[ "User-Agent" := "pyCardDAV" ]}.

(** The [headers] property: a copy of the default headers. *)
Definition headers (self : t) : gmap string string := default_headers self.

(** [requests] called with [headers=] and [**self._settings], through
    the session ([self.session.put]) or the module ([requests.put]): the
    same round trip for the properties stated here.  [str(...)] around a
    path is the identity on [str]. *)
Definition http (self : t) (m : method) (target : string)
    (body : pystr) (hdrs : gmap string string) : M response :=
  send (Request m target hdrs body (settings_auth self) (settings_verify self)).

Definition _check_write_support (self : t) : M unit :=
  if write_support self then ret tt
  else
    emit (StderrWrite "Sorry, no write support for you. Please check the documentation.
") ;;
    raise (SystemExit 1).

Definition get_vcard (self : t) (vref : string) : M string :=
  do response <- http self GET (url_base self +:+ vref) None (headers self);
  ret (content response).

Definition update_vcard (self : t) (card vref : string) (etag : pystr) : M unit :=
  _check_write_support self ;;
  let remotepath := url_base self +:+ vref in
  let headers := headers self in
  let headers := <[ "content-type" := "text/vcard" ]> headers in
  let headers :=
    match etag with
    | Some e => <[ "If-Match" := e ]> headers
    | None => headers
    end in
  http self PUT remotepath (Some card) headers ;;
  ret tt.

Definition delete_vcard (self : t) (vref : string) (etag : pystr) : M unit :=
  _check_write_support self ;;
  let remotepath := url_base self +:+ vref in
  let headers := headers self in
  let headers := <[ "content-type" := "text/vcard" ]> headers in
  let headers :=
    match etag with
    | Some e => <[ "If-Match" := e ]> headers
    | None => headers
    end in
  do result <- http self DELETE remotepath None headers;
  if negb (ok result) then raise (Exception (reason result) (content result))
  else ret tt.

(** One round of [for _ in range(0, 5)]; the local that survives a
    round is [response]. *)
Definition upload_round (self : t) (card : string) (_ : Z)
    (last : option response) : M ((string * string) + option response) :=
  do rand_string <- get_random_href;
  let remotepath := url_resource self +:+ "/" +:+ rand_string +:+ ".vcf" in
  let headers := headers self in
  let headers := <[ "content-type" := "text/vcard" ]> headers in
  let headers := <[ "If-None-Match" := "*" ]> headers in
  do response <- http self PUT remotepath (Some card) headers;
  if ok response then
    let parsed_url := urlparse remotepath in
    let etag :=
      match header_get (resp_headers response) "etag" with
      | None => ""
      | Some e => e
      end in
    ret (inl (path parsed_url, etag))
  else ret (inr (Some response)).

Definition upload_new_card (self : t) (card : string) : M (string * string) :=
  _check_write_support self ;;
  do r <- for_each [0; 1; 2; 3; 4] (upload_round self card) None;
  match r with
  | inl result => ret result
  | inr (Some response) => raise (UploadFailed (reason response))
  | inr None => raise (UnboundLocalError "response")
  end.

Definition _get_xml_props (self : t) : M string :=
  let headers := headers self in
  let headers := <[ "Depth" := "1" ]> headers in
  do response <- http self PROPFIND (url_resource self) None headers;
  match header_get (resp_headers response) "DAV" with
  | Some dav =>
      if count dav "addressbook" =? 0 then
        emit (StderrWrite "URL is not a CardDAV resource") ;;
        raise (SystemExit 1)
      else ret (content response)
  | None =>
      (* [None.count] raises the [AttributeError] the handler catches *)
      emit (Printed "URL is not a DAV resource") ;;
      raise (SystemExit 1)
  end.

(** The call of [ET.XML] is logged, so that a statement can say that the
    parser was not reached. *)
Definition _process_xml_props (xml : string) : M (gmap pystr pystr) :=
  emit (XMLCalled xml) ;;
  match XML xml with
  | inl message => raise (XMLSyntaxError message)
  | inr element => ret (Props.process_element element)
  end.

Definition get_abook (self : t) : M (gmap pystr pystr) :=
  do xml <- _get_xml_props self;
  do abook <- _process_xml_props xml;
  ret abook.

(** *** Vocabulary of the specification *)

(** The request of one attempt of [upload_new_card] with the candidate
    identifier [rand_string]. *)
Definition upload_request (self : t) (card rand_string : string) : request :=
  Request PUT (url_resource self +:+ "/" +:+ rand_string +:+ ".vcf")
          (<[ "If-None-Match" := "*" ]>
             (<[ "content-type" := "text/vcard" ]> (default_headers self)))
          (Some card) (settings_auth self) (settings_verify self).

(** The marker [upload_new_card] returns for an accepted attempt. *)
Definition marker_of (response : response) : string :=
  match header_get (resp_headers response) "etag" with
  | None => ""
  | Some e => e
  end.

(** The log entry of an attempt. *)
Definition sent (attempt : request * (transport_error + response)) : event :=
  Sent (fst attempt) (snd attempt).

End Methods.

End PyCardDAV.

(** ** What every request of a client carries *)

Module Wire.

(** The [verify] property and its setter: they read and write
    [self._settings['verify']]. *)
Definition get_verify (self : PyCardDAV.t) : bool :=
  PyCardDAV.settings_verify self.

Definition set_verify (self : PyCardDAV.t) (verify : bool) : PyCardDAV.t :=
  PyCardDAV.Self (PyCardDAV.url_resource self) (PyCardDAV.url_base self)
    (PyCardDAV.url_path self) (PyCardDAV.debug self)
    (PyCardDAV.write_support self) (PyCardDAV.settings_auth self) verify
    (PyCardDAV.default_headers self).

(** The header names the operations set themselves. *)
Definition operation_keys : list string :=
  ["content-type"; "If-Match"; "If-None-Match"; "Depth"].

(** A logged request carries the credentials and the [verify] setting of
    the client and its default headers, and a write carries the vCard
    content type. *)
Definition stamped (self : PyCardDAV.t) (ev : event) : Prop :=
  match ev with
  | Sent rq _ =>
      auth rq = PyCardDAV.settings_auth self
      /\ verify rq = PyCardDAV.settings_verify self
      /\ (forall k, ~ In k operation_keys ->
                    req_headers rq !! k = PyCardDAV.default_headers self !! k)
      /\ match meth rq with
         | PUT | DELETE => req_headers rq !! "content-type" = Some "text/vcard"
         | _ => True
         end
  | _ => True
  end.

(** No request among the events. *)
Definition silent (evs : list event) : Prop :=
  Forall (fun ev => match ev with Sent _ _ => False | _ => True end) evs.

End Wire.

(** ** Stand-ins for the collaborators

    Executable instances of the interface, to run the client on concrete
    inputs.  They are not part of the module. *)

Module Fixture.

Local Open Scope char_scope.

(** *** A reader for a fragment of XML

    Elements, attributes, namespace declarations, character data and an
    XML declaration; no comments, CDATA sections, DTDs or references.  As
    with lxml, a document needs exactly one root element, [text] is the
    character data before the first child, and a tag is resolved to Clark
    notation. *)

Inductive token : Type :=
| TOpen (name : string) (attrs : list (string * string)) (closed : bool)
| TClose (name : string)
| TText (s : string).

Fixpoint split_at (c : ascii) (s : string) : option (string * string) :=
  match s with
  | EmptyString => None
  | String d s' =>
      if Ascii.eqb c d then Some (EmptyString, s')
      else match split_at c s' with
           | Some (a, b) => Some (String d a, b)
           | None => None
           end
  end.

Fixpoint span (f : ascii -> bool) (s : string) : string * string :=
  match s with
  | EmptyString => (EmptyString, EmptyString)
  | String c s' =>
      if f c then let (a, b) := span f s' in (String c a, b)
      else (EmptyString, s)
  end.

Definition is_space (c : ascii) : bool :=
  Ascii.eqb c " " || Ascii.eqb c "009" || Ascii.eqb c "010" || Ascii.eqb c "013".

Definition name_char (c : ascii) : bool :=
  negb (is_space c || Ascii.eqb c "=" || Ascii.eqb c "/").

Fixpoint all_space (s : string) : bool :=
  match s with
  | EmptyString => true
  | String c s' => is_space c && all_space s'
  end.

(** [body/] of an empty-element tag. *)
Fixpoint strip_slash (s : string) : string * bool :=
  match s with
  | EmptyString => (EmptyString, false)
  | String c s' =>
      match s' with
      | EmptyString => if Ascii.eqb c "/" then (EmptyString, true)
                       else (s, false)
      | _ => let (r, b) := strip_slash s' in (String c r, b)
      end
  end.

Fixpoint read_attrs (fuel : nat) (s : string) : option (list (string * string)) :=
  match fuel with
  | O => None
  | S fuel' =>
      let s := snd (span is_space s) in
      match s with
      | EmptyString => Some []
      | _ =>
          match split_at "=" s with
          | None => None
          | Some (k, rest) =>
              match snd (span is_space rest) with
              | String q rest' =>
                  if Ascii.eqb q "034" || Ascii.eqb q "'" then
                    match split_at q rest' with
                    | Some (v, rest'') =>
                        match read_attrs fuel' rest'' with
                        | Some l => Some ((fst (span name_char k), v) :: l)
                        | None => None
                        end
                    | None => None
                    end
                  else None
              | EmptyString => None
              end
          end
      end
  end.

Fixpoint lex (fuel : nat) (s : string) : option (list token) :=
  match fuel with
  | O => None
  | S fuel' =>
      match s with
      | EmptyString => Some []
      | String "<" rest =>
          match split_at ">" rest with
          | None => None
          | Some (inside, after) =>
              match inside with
              | EmptyString => None
              | String "!" _ => None
              | String "?" _ => lex fuel' after
              | String "/" name =>
                  match lex fuel' after with
                  | Some l => Some (TClose (fst (span name_char name)) :: l)
                  | None => None
                  end
              | _ =>
                  let (body, closed) := strip_slash inside in
                  let (name, rest_attrs) := span name_char body in
                  match name, read_attrs (S (String.length rest_attrs)) rest_attrs,
                        lex fuel' after with
                  | String _ _, Some attrs, Some l =>
                      Some (TOpen name attrs closed :: l)
                  | _, _, _ => None
                  end
              end
          end
      | _ =>
          let (txt, rest) := span (fun c => negb (Ascii.eqb c "<")) s in
          match lex fuel' rest with
          | Some l => Some (TText txt :: l)
          | None => None
          end
      end
  end.

(** An element under construction: the name as written, the resolved tag,
    the namespaces in scope, the text and the children so far (last
    first). *)
Record frame : Type := Frame {
  raw : string;
  ftag : string;
  env : list (string * string);
  ftext : string;
  kids : list element
}.

Fixpoint assoc (k : string) (l : list (string * string)) : option string :=
  match l with
  | [] => None
  | (k', v) :: l' => if String.eqb k k' then Some v else assoc k l'
  end.

(** The declarations [xmlns="uri"] and [xmlns:p="uri"] among the
    attributes, in front of the inherited ones. *)
Fixpoint declare (attrs : list (string * string)) (env : list (string * string))
  : list (string * string) :=
  match attrs with
  | [] => env
  | (k, v) :: attrs' =>
      if String.eqb k "xmlns" then (EmptyString, v) :: declare attrs' env
      else match split_at ":" k with
           | Some (pfx, p) =>
               if String.eqb pfx "xmlns" then (p, v) :: declare attrs' env
               else declare attrs' env
           | None => declare attrs' env
           end
  end.

Definition resolve (env : list (string * string)) (name : string) : option string :=
  match split_at ":" name with
  | Some (pfx, local) =>
      match assoc pfx env with
      | Some uri => Some ("{" +:+ uri +:+ "}" +:+ local)%string
      | None => None
      end
  | None =>
      match assoc EmptyString env with
      | Some (String c uri) => Some ("{" +:+ String c uri +:+ "}" +:+ name)%string
      | _ => Some name
      end
  end.

Definition text_of (s : string) : pystr :=
  match s with
  | EmptyString => None
  | _ => Some s
  end.

(** Hand a finished element to its parent, or make it the root. *)
Definition attach (e : element) (stack : list frame) (root : option element)
  : option (list frame * option element) :=
  match stack with
  | f :: fs => Some (Frame (raw f) (ftag f) (env f) (ftext f) (e :: kids f) :: fs, root)
  | [] =>
      match root with
      | None => Some ([], Some e)
      | Some _ => None
      end
  end.

Fixpoint build (toks : list token) (stack : list frame) (root : option element)
  : string + element :=
  match toks with
  | [] =>
      match stack, root with
      | [], Some e => inr e
      | [], None => inl "Document is empty"%string
      | _ :: _, _ => inl "Premature end of data"%string
      end
  | TText s :: toks' =>
      match stack with
      | [] =>
          if all_space s then build toks' stack root
          else inl (match root with
                    | None => "Start tag expected, '<' not found"
                    | Some _ => "Extra content at the end of the document"
                    end)%string
      | f :: fs =>
          match kids f with
          | [] => build toks' (Frame (raw f) (ftag f) (env f) (ftext f +:+ s) [] :: fs) root
          | _ => build toks' stack root
          end
      end
  | TOpen name attrs closed :: toks' =>
      let scope := declare attrs (match stack with f :: _ => env f | [] => [] end) in
      match resolve scope name with
      | None => inl "Namespace prefix is not defined"%string
      | Some qname =>
          if closed then
            match attach (Element qname None []) stack root with
            | Some (stack', root') => build toks' stack' root'
            | None => inl "Extra content at the end of the document"%string
            end
          else
            match stack, root with
            | [], Some _ => inl "Extra content at the end of the document"%string
            | _, _ => build toks' (Frame name qname scope EmptyString [] :: stack) root
            end
      end
  | TClose name :: toks' =>
      match stack with
      | [] => inl "Extra content at the end of the document"%string
      | f :: fs =>
          if String.eqb name (raw f) then
            match attach (Element (ftag f) (text_of (ftext f)) (rev (kids f))) fs root with
            | Some (stack', root') => build toks' stack' root'
            | None => inl "Extra content at the end of the document"%string
            end
          else inl "Opening and ending tag mismatch"%string
      end
  end.

Definition XML (xml : string) : string + element :=
  match lex (S (String.length xml)) xml with
  | None => inl "Start tag expected, '<' not found"%string
  | Some toks => build toks [] None
  end.

(** *** [urlparse] for URLs of the shape [scheme://netloc/path?query#fragment] *)

Definition cut (c : ascii) (s : string) : string * string :=
  match split_at c s with
  | Some (a, b) => (a, b)
  | None => (s, EmptyString)
  end.

Definition urlparse (u : string) : ParseResult :=
  match split_at ":" u with
  | Some (sch, String "/" (String "/" rest)) =>
      let (net, rest1) :=
        span (fun c => negb (Ascii.eqb c "/" || Ascii.eqb c "?" || Ascii.eqb c "#"))
             rest in
      let (rest2, frag) := cut "#" rest1 in
      let (p, q) := cut "?" rest2 in
      Build_ParseResult (lower sch) net p EmptyString q frag
  | _ =>
      let (rest2, frag) := cut "#" u in
      let (p, q) := cut "?" rest2 in
      Build_ParseResult EmptyString EmptyString p EmptyString q frag
  end.

(** *** A server that follows a script: one prepared answer per request *)

Definition script : Type := list (transport_error + response).

Definition scripted (rq : request) (sv : script)
  : (transport_error + response) * script :=
  match sv with
  | answer :: rest => (answer, rest)
  | [] => (inl ConnectionError, [])
  end.

Definition collaborators : Collaborators :=
  Build_Collaborators script scripted Z Href.lcg_randint XML urlparse.

Local Open Scope string_scope.

(** *** Answers and documents *)

Definition created : response :=
  Response true "Created" [("ETag", "v1"); ("Content-Length", "0")] "".

Definition created_without_etag : response :=
  Response true "Created" [("Content-Length", "0")] "".

Definition no_content : response :=
  Response true "No Content" [("ETag", "v2")] "".

Definition precondition_failed : response :=
  Response false "Precondition Failed" [] "".

Definition multistatus (dav : list (string * string)) (body : string) : response :=
  Response true "Multi-Status" (dav ++ [("Content-Type", "text/xml")]) body.

(** The listing of the specification's scenario: a vCard and a
    collection. *)
Definition listing : string :=
"<?xml version='1.0' encoding='utf-8'?>
<D:multistatus xmlns:D='DAV:'>
 <D:response>
  <D:href>/a.vcf</D:href>
  <D:propstat>
   <D:prop>
    <D:getcontenttype>text/vcard</D:getcontenttype>
    <D:getetag>abc</D:getetag>
   </D:prop>
   <D:status>HTTP/1.1 200 OK</D:status>
  </D:propstat>
 </D:response>
 <D:response>
  <D:href>/dir/</D:href>
  <D:propstat>
   <D:prop>
    <D:getcontenttype>text/directory</D:getcontenttype>
    <D:resourcetype><D:collection/></D:resourcetype>
   </D:prop>
  </D:propstat>
 </D:response>
</D:multistatus>".

(** A vCard whose [getetag] element is empty. *)
Definition listing_empty_getetag : string :=
"<D:multistatus xmlns:D='DAV:'><D:response><D:href>/a.vcf</D:href><D:propstat><D:prop><D:getcontenttype>text/vcard</D:getcontenttype><D:getetag/></D:prop></D:propstat></D:response></D:multistatus>".

(** A vCard without [getetag]. *)
Definition listing_without_getetag : string :=
"<D:multistatus xmlns:D='DAV:'><D:response><D:href>/b.vcf</D:href><D:propstat><D:prop><D:getcontenttype>text/x-vcard</D:getcontenttype></D:prop></D:propstat></D:response></D:multistatus>".

(** A vCard without [href]. *)
Definition listing_without_href : string :=
"<D:multistatus xmlns:D='DAV:'><D:response><D:propstat><D:prop><D:getetag>e1</D:getetag><D:getcontenttype>text/vcard</D:getcontenttype></D:prop></D:propstat></D:response></D:multistatus>".

Definition empty_multistatus : string := "<D:multistatus xmlns:D='DAV:'/>".

(** The element trees the reader returns for them, and the first
    [response] element of each. *)
Definition tree (xml : string) : element :=
  match XML xml with
  | inr e => e
  | inl _ => Element "" None []
  end.

Definition first_child (e : element) : element :=
  hd (Element "" None []) (children e).

Definition listing_tree : element := Eval vm_compute in tree listing.

Definition vcard_response : element :=
  Eval vm_compute in first_child listing_tree.

Definition empty_getetag_tree : element :=
  Eval vm_compute in tree listing_empty_getetag.

Definition without_href_tree : element :=
  Eval vm_compute in tree listing_without_href.

Definition without_href_response : element :=
  Eval vm_compute in first_child without_href_tree.

(** *** A client and a world *)

Definition client : PyCardDAV.t :=
  PyCardDAV.init (H := collaborators)
    "http://localhost:8080/dav/abook" "" "user" "secret" true true.

Definition read_only_client : PyCardDAV.t :=
  PyCardDAV.init (H := collaborators)
    "http://localhost:8080/dav/abook" "" "user" "secret" true false.

Definition world_with (answers : script) : world (H := collaborators) :=
  World (H := collaborators) answers 12345%Z [].

End Fixture.

(** ** Reading an identifier back *)

Module Token.

Local Open Scope char_scope.

Fixpoint string_forall (f : ascii -> bool) (s : string) : bool :=
  match s with
  | EmptyString => true
  | String c s' => f c && string_forall f s'
  end.

(** [s.split(c)]. *)
Fixpoint split_on (c : ascii) (s : string) : list string :=
  match s with
  | EmptyString => [EmptyString]
  | String d s' =>
      if Ascii.eqb c d then EmptyString :: split_on c s'
      else match split_on c s' with
           | part :: parts => String d part :: parts
           | [] => [String d EmptyString]
           end
  end.

Definition is_hex_lower (c : ascii) : bool :=
  let n := nat_of_ascii c in
  ((48 <=? n) && (n <=? 57) || (97 <=? n) && (n <=? 102))%nat.

Definition is_hex_upper (c : ascii) : bool :=
  let n := nat_of_ascii c in
  ((48 <=? n) && (n <=? 57) || (65 <=? n) && (n <=? 70))%nat.

(** The characters an identifier is made of: [0-9], [A-F] and the
    hyphen. *)
Definition token_char (c : ascii) : bool := is_hex_upper c || Ascii.eqb c "-".

(** The numbers an identifier was built from:
    [[int(part, 16) for part in token.split('-')]]. *)
Definition token_draws (token : string) : list Z :=
  map (fun part => hex_value (lower part)) (split_on "-" token).

(** A generator that always returns the upper end of the interval. *)
Definition max_randint (a b : Z) (g : unit) : Z * unit := (b, g).

End Token.

(** ** The listing read the simple way *)

Module Simple.

(** The text of the first child of a [response] element, where a
    multi-status answer has the [href]. *)
Definition head_text (response : element) : pystr :=
  match children response with
  | h :: _ => text h
  | [] => Some ""
  end.

(** The first child is the [href] and no other child is one. *)
Definition laid_out (response : element) : bool :=
  match children response with
  | h :: rest =>
      Props.is_href h && forallb (fun refprop => negb (Props.is_href refprop)) rest
  | [] => false
  end.

(** One entry per qualifying resource: its [href] and its marker. *)
Definition entry (m : gmap pystr pystr) (response : element) : gmap pystr pystr :=
  if Props.is_response response && Props.qualifies response
  then <[head_text response
         := Props.last_getetag (Some "") (Props.properties response)]> m
  else m.

Definition listing (root : element) : gmap pystr pystr :=
  fold_left entry (children root) ∅.

End Simple.

(** ** Where keys and markers come from *)

Module Origin.

(** What the locals hold comes from the places [K] (keys) and [V]
    (markers) allow. *)
Definition from_document (K V : pystr -> Prop) (l : Props.locals) : Prop :=
  K (Props.href l) /\ V (Props.etag l)
  /\ forall k v, Props.abook l !! k = Some v -> K k /\ V v.

End Origin.

(** ** Element trees to run the parser on *)

Module Sample.

Definition leaf (name : string) (content : pystr) : element :=
  Element ("{DAV:}" +:+ name) content [].

Definition propstat (properties : list element) : element :=
  Element "{DAV:}propstat" None [Element "{DAV:}prop" None properties].

(** A vCard resource at [path] with the marker [marker]. *)
Definition vcard (path marker : string) : element :=
  Element "{DAV:}response" None
    [leaf "href" (Some path);
     propstat [leaf "getcontenttype" (Some "text/vcard");
               leaf "getetag" (Some marker)]].

Definition collection (path : string) : element :=
  Element "{DAV:}response" None
    [leaf "href" (Some path);
     propstat [leaf "getcontenttype" (Some "text/directory")]].

(** The same path listed twice. *)
Definition twice : element :=
  Element "{DAV:}multistatus" None
    [vcard "/a.vcf" "old"; collection "/"; vcard "/a.vcf" "new";
     vcard "/b.vcf" "b1"].

(** [twice] with other children of the root in between. *)
Definition twice_and_more : element :=
  Element "{DAV:}multistatus" (Some "text")
    [leaf "sync-token" (Some "t1"); vcard "/a.vcf" "old"; collection "/";
     Element "response" None (children (vcard "/x.vcf" "x"));
     vcard "/a.vcf" "new"; vcard "/b.vcf" "b1"].

(** A vCard whose [href] follows its properties, and a status after it. *)
Definition href_late : element :=
  Element "{DAV:}response" None
    [propstat [leaf "getcontenttype" (Some "text/vcard");
               leaf "getetag" (Some "e1")];
     leaf "href" (Some "/late.vcf");
     propstat [leaf "displayname" (Some "Late")]].

End Sample.

(** * Properties *)

(** ** Strings *)

Lemma append_cons (c : ascii) (s t : string) :
  String c s +:+ t = String c (s +:+ t).
Proof. reflexivity. Qed.

Lemma length_append (s t : string) :
  String.length (s +:+ t) = (String.length s + String.length t)%nat.
Proof.
  induction s as [|c s IH]; [reflexivity |].
  rewrite append_cons. simpl. now rewrite IH.
Qed.

Lemma append_snoc (s t : string) (c : ascii) :
  (s +:+ String c "") +:+ t = s +:+ String c t.
Proof.
  induction s as [|d s IH]; [reflexivity |].
  rewrite !append_cons. now rewrite IH.
Qed.

Lemma append_empty_r (s : string) : s +:+ "" = s.
Proof.
  induction s as [|c s IH]; [reflexivity |].
  rewrite append_cons. now rewrite IH.
Qed.

Lemma upper_length (s : string) : String.length (upper s) = String.length s.
Proof. induction s as [|c s IH]; simpl; [reflexivity | now rewrite IH]. Qed.

Lemma hex_value_from_append (s t : string) (acc : Z) :
  hex_value_from acc (s +:+ t) = hex_value_from (hex_value_from acc s) t.
Proof.
  revert acc; induction s as [|c s IH]; intros acc; [reflexivity |].
  rewrite append_cons. simpl. apply IH.
Qed.

Lemma hex_digit_value_digit (d : Z) :
  0 <= d < 16 -> hex_digit_value (hex_digit d) = d.
Proof.
  intros Hd.
  assert (Hcases : d = 0 \/ d = 1 \/ d = 2 \/ d = 3 \/ d = 4 \/ d = 5 \/ d = 6
                   \/ d = 7 \/ d = 8 \/ d = 9 \/ d = 10 \/ d = 11 \/ d = 12
                   \/ d = 13 \/ d = 14 \/ d = 15) by lia.
  repeat (destruct Hcases as [-> | Hcases]; [reflexivity |]).
  now subst d.
Qed.

(** ** [format_x] *)

Section FormatX.

(** The digits are put in front of the accumulator, at most [k] of them
    for a number below [16 ^ k], and at least one. *)
Lemma format_x_digits_length (fuel : nat) :
  forall (n : Z) (acc : string) (k : nat),
    (1 <= k)%nat -> 0 <= n < 16 ^ Z.of_nat k ->
    (1 + String.length acc <= String.length (format_x_digits fuel n acc)
     <= k + String.length acc)%nat.
Proof.
  induction fuel as [|fuel IH]; intros n acc k Hk Hn; simpl.
  - lia.
  - destruct (Z.eqb_spec (n / 16) 0) as [Hq | Hq]; simpl; [lia |].
    assert (Hn16 : 16 <= n).
    { destruct (Z_lt_le_dec n 16) as [Hlt | Hge]; [| exact Hge].
      exfalso; apply Hq; apply Z.div_small; lia. }
    destruct k as [|[|k]]; [lia | simpl in Hn; lia |].
    assert (Hdiv : 0 <= n / 16 < 16 ^ Z.of_nat (S k)).
    { split; [apply Z.div_pos; lia |].
      apply Z.div_lt_upper_bound; [lia |].
      replace (Z.of_nat (S (S k))) with (Z.succ (Z.of_nat (S k))) in Hn by lia.
      rewrite Z.pow_succ_r in Hn by lia. lia. }
    specialize (IH (n / 16) (String (hex_digit (n mod 16)) acc) (S k)
                   ltac:(lia) Hdiv).
    simpl in IH. lia.
Qed.

(** With enough fuel the digits denote the number. *)
Lemma format_x_digits_value (fuel : nat) :
  forall (n : Z) (acc : string),
    0 <= n < 16 ^ Z.of_nat (S fuel) ->
    exists ds, format_x_digits fuel n acc = ds +:+ acc /\ hex_value ds = n.
Proof.
  induction fuel as [|fuel IH]; intros n acc Hn.
  - exists (String (hex_digit n) ""). simpl.
    change (16 ^ 1) with 16 in Hn.
    rewrite Z.mod_small by lia. split; [reflexivity |].
    unfold hex_value; simpl. now rewrite hex_digit_value_digit.
  - simpl format_x_digits.
    assert (Hmod : 0 <= n mod 16 < 16) by (apply Z.mod_pos_bound; lia).
    destruct (Z.eqb_spec (n / 16) 0) as [Hq | Hq]; cbv iota.
    + exists (String (hex_digit (n mod 16)) ""). split; [reflexivity |].
      unfold hex_value; simpl. rewrite hex_digit_value_digit by exact Hmod.
      pose proof (Z.div_mod n 16 ltac:(lia)). lia.
    + assert (Hdiv : 0 <= n / 16 < 16 ^ Z.of_nat (S fuel)).
      { split; [apply Z.div_pos; lia |].
        apply Z.div_lt_upper_bound; [lia |].
        replace (Z.of_nat (S (S fuel))) with (Z.succ (Z.of_nat (S fuel))) in Hn by lia.
        rewrite Z.pow_succ_r in Hn by lia. lia. }
      destruct (IH (n / 16) (String (hex_digit (n mod 16)) acc) Hdiv)
        as (ds & Heq & Hval).
      exists (ds +:+ String (hex_digit (n mod 16)) ""). split.
      * rewrite Heq. symmetry. apply append_snoc.
      * unfold hex_value in *. rewrite hex_value_from_append, Hval. simpl.
        rewrite hex_digit_value_digit by exact Hmod.
        pose proof (Z.div_mod n 16 ltac:(lia)). lia.
Qed.

Lemma log2_fuel (n : Z) : 0 <= n -> n < 16 ^ Z.of_nat (S (Z.to_nat (Z.log2 n))).
Proof.
  intros Hn.
  destruct (Z.eq_dec n 0) as [-> | Hne].
  - reflexivity.
  - pose proof (Z.log2_spec n ltac:(lia)) as [_ Hlt].
    pose proof (Z.log2_nonneg n) as Hl.
    replace (Z.of_nat (S (Z.to_nat (Z.log2 n)))) with (Z.succ (Z.log2 n)) by lia.
    eapply Z.lt_le_trans; [exact Hlt |].
    apply Z.pow_le_mono_l; lia.
Qed.

(** [format_x] is read back by [hex_value]: the rendering loses nothing. *)
Lemma format_x_value (n : Z) : 0 <= n -> hex_value (format_x n) = n.
Proof.
  intros Hn. unfold format_x.
  destruct (Z.ltb_spec n 0) as [Hneg | _]; [lia |].
  destruct (format_x_digits_value (Z.to_nat (Z.log2 n)) n ""
              (conj Hn (log2_fuel n Hn))) as (ds & Heq & Hval).
  rewrite Heq, append_empty_r. exact Hval.
Qed.

Lemma format_x_length (n : Z) (k : nat) :
  (1 <= k)%nat -> 0 <= n < 16 ^ Z.of_nat k ->
  (1 <= String.length (format_x n) <= k)%nat.
Proof.
  intros Hk Hn. unfold format_x.
  destruct (Z.ltb_spec n 0) as [Hneg | _]; [lia |].
  pose proof (format_x_digits_length (Z.to_nat (Z.log2 n)) n "" k Hk Hn) as H.
  simpl in H. lia.
Qed.

End FormatX.

(** ** The identifier generator *)

Section GeneratorProperties.
Context {G : Type} (randint : Z -> Z -> G -> Z * G).

(** The token is built from the three draws and nothing else. *)
Lemma get_random_href_draws (g : G) :
  fst (Href.get_random_href randint g) =
  let '(a, b, c) := Href.draws randint g in
  upper (format_x a +:+ "-" +:+ format_x b +:+ "-" +:+ format_x c).
Proof.
  unfold Href.get_random_href, Href.draws. simpl.
  destruct (randint 0 4294967296 g) as [a g1].
  destruct (randint 0 4294967296 g1) as [b g2].
  destruct (randint 0 4294967296 g2) as [c g3].
  reflexivity.
Qed.

Lemma token_length (a b c : Z) (k : nat) :
  (1 <= k)%nat ->
  0 <= a < 16 ^ Z.of_nat k -> 0 <= b < 16 ^ Z.of_nat k ->
  0 <= c < 16 ^ Z.of_nat k ->
  (5 <= String.length
          (upper (format_x a +:+ "-" +:+ format_x b +:+ "-" +:+ format_x c))
   <= 3 * k + 2)%nat.
Proof.
  intros Hk Ha Hb Hc.
  rewrite upper_length, !length_append.
  pose proof (format_x_length a k Hk Ha).
  pose proof (format_x_length b k Hk Hb).
  pose proof (format_x_length c k Hk Hc).
  change (String.length "-") with 1%nat. lia.
Qed.

(** X3: whatever [randint] returns inside the interval it is asked for,
    the token has between 5 and 29 characters: a draw of [0x100000000],
    which the inclusive bound allows, takes nine digits. *)
Lemma get_random_href_length_le_29 (g : G) :
  (forall lo hi s, lo <= hi -> lo <= fst (randint lo hi s) <= hi) ->
  (5 <= String.length (fst (Href.get_random_href randint g)) <= 29)%nat.
Proof.
  intros Hrange. rewrite get_random_href_draws. unfold Href.draws.
  pose proof (Hrange 0 0x100000000 g ltac:(lia)) as Ha.
  destruct (randint 0 4294967296 g) as [a g1].
  pose proof (Hrange 0 0x100000000 g1 ltac:(lia)) as Hb.
  destruct (randint 0 4294967296 g1) as [b g2].
  pose proof (Hrange 0 0x100000000 g2 ltac:(lia)) as Hc.
  destruct (randint 0 4294967296 g2) as [c g3].
  simpl fst in *.
  apply (token_length a b c 9); [lia | | |];
    change (16 ^ Z.of_nat 9) with 68719476736; lia.
Qed.

(** C9 (amended): the identifier is the three draws, each rendered in
    hexadecimal without padding, joined by hyphens and upper-cased; when
    the draws are unsigned 32-bit values it has between 5 and 26
    characters. *)
Theorem get_random_href_token (g : G) (a b c : Z) :
  Href.draws randint g = (a, b, c) ->
  0 <= a < 2 ^ 32 -> 0 <= b < 2 ^ 32 -> 0 <= c < 2 ^ 32 ->
  fst (Href.get_random_href randint g) =
    upper (format_x a +:+ "-" +:+ format_x b +:+ "-" +:+ format_x c)
  /\ (5 <= String.length (fst (Href.get_random_href randint g)) <= 26)%nat.
Proof.
  intros Hdraws Ha Hb Hc.
  rewrite get_random_href_draws, Hdraws. split; [reflexivity |].
  apply (token_length a b c 8); [lia | | |];
    change (16 ^ Z.of_nat 8) with (2 ^ 32); assumption.
Qed.

End GeneratorProperties.

Lemma get_random_href_token_witness :
  fst (Href.get_random_href Href.lcg_randint 12345) =
    upper (format_x 12345 +:+ "-" +:+ format_x 1406932606 +:+ "-"
           +:+ format_x 654583775)
  /\ (5 <= String.length (fst (Href.get_random_href Href.lcg_randint 12345%Z))
      <= 26)%nat.
Proof.
  apply (get_random_href_token Href.lcg_randint 12345 12345 1406932606 654583775);
    [vm_compute; reflexivity | lia | lia | lia].
Defined.

(** The generator run on a concrete state: a token of 22 characters. *)
Lemma get_random_href_not_35 :
  fst (Href.get_random_href Href.lcg_randint 12345) = "3039-53DC167E-270427DF"
  /\ String.length (fst (Href.get_random_href Href.lcg_randint 12345)) <> 35%nat.
Proof. split; [vm_compute; reflexivity | vm_compute; discriminate]. Qed.

(** ** The parser: what the loops do to the locals *)

Section ParserLoops.
Import Props.

Implicit Types (l : locals) (m : gmap pystr pystr).
Implicit Types (p prop refprop r : element) (ps : list element).

(** One property: [insert] is raised by a vCard content type, [etag] is
    overwritten by a [getetag]; [href] and the dictionary stay. *)
Lemma props_body_spec l p :
  props_body l p =
  Locals (href l)
         (if is_getetag p then text p else etag l)
         (Props.insert l || is_vcard_type p)
         (abook l).
Proof.
  unfold props_body, is_getetag, is_vcard_type, namespace.
  change ("{DAV:}" +:+ "getcontenttype") with "{DAV:}getcontenttype".
  change ("{DAV:}" +:+ "getetag") with "{DAV:}getetag".
  destruct l as [h e i a]; simpl.
  destruct (String.eqb (tag p) "{DAV:}getcontenttype"
            && (pystr_eqb (text p) "text/vcard"
                || pystr_eqb (text p) "text/x-vcard"));
    destruct (String.eqb (tag p) "{DAV:}getetag"); simpl;
    rewrite ?orb_true_r, ?orb_false_r; reflexivity.
Qed.

Lemma props_loop_spec ps l :
  fold_left props_body ps l =
  Locals (href l)
         (last_getetag (etag l) ps)
         (Props.insert l || existsb is_vcard_type ps)
         (abook l).
Proof.
  revert l; induction ps as [|p ps IH]; intros l.
  - destruct l; simpl. now rewrite orb_false_r.
  - simpl fold_left. rewrite IH, props_body_spec. simpl.
    now rewrite orb_assoc.
Qed.

(** One [prop] element: its properties are scanned, then the entry is
    written when [insert] is up. *)
Lemma prop_body_spec l prop :
  prop_body l prop =
  let e := last_getetag (etag l) (children prop) in
  let i := Props.insert l || existsb is_vcard_type (children prop) in
  Locals (href l) e i (if i then <[href l := e]> (abook l) else abook l).
Proof.
  unfold prop_body. rewrite props_loop_spec. simpl.
  destruct (Props.insert l || existsb is_vcard_type (children prop));
    reflexivity.
Qed.

Lemma last_getetag_app d ps qs :
  last_getetag d (ps ++ qs) = last_getetag (last_getetag d ps) qs.
Proof. unfold last_getetag. apply fold_left_app. Qed.

(** The scan of [etag] and [insert] does not depend on the nesting. *)
Lemma prop_loop_scan props l :
  let l' := fold_left prop_body props l in
  href l' = href l
  /\ etag l' = last_getetag (etag l) (flat_map children props)
  /\ Props.insert l' =
       Props.insert l || existsb is_vcard_type (flat_map children props).
Proof.
  revert l; induction props as [|prop props IH]; intros l; simpl.
  - now rewrite orb_false_r.
  - destruct (IH (prop_body l prop)) as (Hh & He & Hi).
    rewrite Hh, He, Hi, prop_body_spec. simpl.
    rewrite last_getetag_app, existsb_app, orb_assoc. auto.
Qed.

Lemma refprop_body_scan l refprop :
  let l' := refprop_body l refprop in
  href l' = (if is_href refprop then text refprop else href l)
  /\ etag l' = last_getetag (etag l) (flat_map children (children refprop))
  /\ Props.insert l' =
       Props.insert l
       || existsb is_vcard_type (flat_map children (children refprop)).
Proof.
  unfold refprop_body, is_href, namespace.
  change ("{DAV:}" +:+ "href") with "{DAV:}href".
  match goal with |- context [fold_left prop_body _ ?s] =>
    destruct (prop_loop_scan (children refprop) s) as (Hh & He & Hi) end.
  simpl. rewrite Hh, He, Hi.
  destruct (String.eqb (tag refprop) "{DAV:}href"); simpl; auto.
Qed.

Lemma refprop_loop_scan rs l :
  let l' := fold_left refprop_body rs l in
  let ps := flat_map (fun refprop => flat_map children (children refprop)) rs in
  etag l' = last_getetag (etag l) ps
  /\ Props.insert l' = Props.insert l || existsb is_vcard_type ps.
Proof.
  revert l; induction rs as [|refprop rs IH]; intros l; simpl.
  - now rewrite orb_false_r.
  - destruct (IH (refprop_body l refprop)) as (He & Hi).
    destruct (refprop_body_scan l refprop) as (_ & He1 & Hi1).
    rewrite He, Hi, He1, Hi1.
    rewrite last_getetag_app, existsb_app, orb_assoc. auto.
Qed.

(** At the end of the loop over a [response], [insert] says whether the
    resource qualifies and [etag] holds the marker. *)
Lemma response_loop_scan r m :
  let l' := fold_left refprop_body (children r)
              (Locals (Some "") (Some "") false m) in
  etag l' = last_getetag (Some "") (properties r)
  /\ Props.insert l' = qualifies r.
Proof.
  destruct (refprop_loop_scan (children r) (Locals (Some "") (Some "") false m))
    as (He & Hi).
  simpl in *. split; [exact He | exact Hi].
Qed.

End ParserLoops.

(** ** The parser: what the loops do to the dictionary *)

Section ParserDictionary.
Import Props.

Implicit Types (l t : locals) (m : gmap pystr pystr) (k : pystr).
Implicit Types (p prop refprop r root : element) (ps rs : list element).

(** *** The dictionary the loop starts from only sits underneath *)


Lemma fold_left_over {A} (f : locals -> A -> locals) m :
  (forall l t x, over m l t -> over m (f l x) (f t x)) ->
  forall xs l t, over m l t -> over m (fold_left f xs l) (fold_left f xs t).
Proof.
  intros Hf xs; induction xs as [|x xs IH]; intros l t Hlt; simpl; auto.
Qed.

Lemma prop_body_over m l t prop :
  over m l t -> over m (prop_body l prop) (prop_body t prop).
Proof.
  intros (Hh & He & Hi & Ha). rewrite !prop_body_spec.
  unfold over; simpl. rewrite Hh, He, Hi, Ha.
  repeat split.
  destruct (Props.insert t || existsb is_vcard_type (children prop));
    [now rewrite insert_union_l | reflexivity].
Qed.

Lemma refprop_body_over m l t refprop :
  over m l t -> over m (refprop_body l refprop) (refprop_body t refprop).
Proof.
  intros (Hh & He & Hi & Ha). unfold refprop_body.
  apply fold_left_over; [intros; now apply prop_body_over |].
  destruct (String.eqb (tag refprop) (namespace +:+ "href"));
    unfold over; simpl; auto.
Qed.

Lemma response_body_union m r :
  response_body m r = contribution r ∪ m.
Proof.
  unfold contribution, response_body.
  destruct (String.eqb (tag r) (namespace +:+ "response")).
  - apply (fold_left_over refprop_body m (fun l t x => refprop_body_over m l t x)).
    unfold over; simpl. now rewrite (left_id_L ∅ (∪)).
  - now rewrite (left_id_L ∅ (∪)).
Qed.

(** *** An entry is written exactly when [insert] is up *)


Lemma prop_body_written l prop : written l -> written (prop_body l prop).
Proof.
  intros Hl. rewrite prop_body_spec. unfold written; simpl.
  destruct (Props.insert l || existsb is_vcard_type (children prop)) eqn:Hi.
  - right. split; [reflexivity | apply insert_non_empty].
  - left. apply orb_false_elim in Hi as [Hi _].
    destruct Hl as [[_ Ha] | [Ht _]]; [auto | congruence].
Qed.

Lemma prop_loop_written props l :
  written l -> written (fold_left prop_body props l).
Proof.
  revert l; induction props as [|prop props IH]; intros l Hl; simpl;
    [exact Hl | apply IH, prop_body_written, Hl].
Qed.

Lemma refprop_loop_written rs l :
  written l -> written (fold_left refprop_body rs l).
Proof.
  revert l; induction rs as [|refprop rs IH]; intros l Hl; simpl;
    [exact Hl |].
  apply IH. unfold refprop_body. apply prop_loop_written.
  destruct (String.eqb (tag refprop) (namespace +:+ "href")); exact Hl.
Qed.

Lemma contribution_nonempty r :
  contribution r <> ∅ <-> is_response r = true /\ qualifies r = true.
Proof.
  unfold contribution, response_body, is_response, namespace.
  change ("{DAV:}" +:+ "response") with "{DAV:}response".
  destruct (String.eqb (tag r) "{DAV:}response").
  - destruct (response_loop_scan r ∅) as (_ & Hi). simpl in Hi.
    assert (Hw : written (fold_left refprop_body (children r)
                            (Locals (Some "") (Some "") false ∅))).
    { apply refprop_loop_written. left. split; reflexivity. }
    rewrite <- Hi.
    destruct Hw as [[Hf Ha] | [Ht Ha]].
    + rewrite Hf, Ha. split; [congruence | intros [_ ?]; discriminate].
    + rewrite Ht. split; [auto | intros _; exact Ha].
  - split; [congruence | intros [? _]; discriminate].
Qed.

(** *** A resource whose [href] does not change any more *)


Lemma prop_body_entry_at m k l prop :
  entry_at m k l -> entry_at m k (prop_body l prop).
Proof.
  intros (Hh & Ha). rewrite prop_body_spec. unfold entry_at; simpl.
  split; [exact Hh |]. rewrite Hh, Ha.
  destruct (Props.insert l); simpl; [now rewrite insert_insert_eq |].
  destruct (existsb is_vcard_type (children prop)); reflexivity.
Qed.

Lemma prop_loop_entry_at m k props l :
  entry_at m k l -> entry_at m k (fold_left prop_body props l).
Proof.
  revert l; induction props as [|prop props IH]; intros l Hl; simpl;
    [exact Hl | apply IH, prop_body_entry_at, Hl].
Qed.

Lemma refprop_loop_entry_at m k rs l :
  forallb (fun refprop => negb (is_href refprop)) rs = true ->
  entry_at m k l -> entry_at m k (fold_left refprop_body rs l).
Proof.
  revert l; induction rs as [|refprop rs IH]; intros l Hrs Hl; simpl;
    [exact Hl |].
  simpl in Hrs. apply andb_prop in Hrs as [Hr Hrs].
  apply IH; [exact Hrs |]. unfold refprop_body.
  apply prop_loop_entry_at.
  unfold is_href in Hr. unfold namespace.
  change ("{DAV:}" +:+ "href") with "{DAV:}href".
  destruct (String.eqb (tag refprop) "{DAV:}href"); [discriminate | exact Hl].
Qed.

End ParserDictionary.

(** ** The parser: the listing as a whole *)

Section Listing.
Import Props.

Implicit Types (l : locals) (m : gmap pystr pystr) (k : pystr).
Implicit Types (p r root h : element) (ps rs rest : list element).

(** A key is in the result exactly when a child of the root wrote it. *)
Lemma response_loop_lookup rs m k :
  is_Some (fold_left response_body rs m !! k) <->
  is_Some (m !! k) \/ exists r, In r rs /\ is_Some (contribution r !! k).
Proof.
  revert m; induction rs as [|r rs IH]; intros m; simpl.
  - split; [auto | intros [H | (r & [] & _)]; exact H].
  - rewrite IH, response_body_union, lookup_union_is_Some. split.
    + intros [[H | H] | (r' & Hin & H)]; eauto 6.
    + intros [H | (r' & [<- | Hin] & H)]; eauto 6.
Qed.

Lemma contribution_empty r :
  is_response r && qualifies r = false -> contribution r = ∅.
Proof.
  intros Hr.
  destruct (map_choose_or_empty (contribution r)) as [(k & v & Hkv) | He];
    [| exact He].
  assert (Hne : contribution r <> ∅).
  { intros He. rewrite He, lookup_empty in Hkv. discriminate. }
  apply contribution_nonempty in Hne as [H1 H2].
  rewrite H1, H2 in Hr. discriminate.
Qed.

(** A listing without a qualifying resource gives the empty dictionary. *)
Lemma process_element_empty root :
  forallb (fun r => negb (is_response r && qualifies r)) (children root) = true ->
  process_element root = ∅.
Proof.
  intros Hall. apply map_empty. intros k.
  apply eq_None_not_Some. unfold process_element.
  rewrite response_loop_lookup. intros [H | (r & Hin & H)].
  - rewrite lookup_empty in H. destruct H; discriminate.
  - rewrite forallb_forall in Hall. specialize (Hall r Hin).
    apply negb_true_iff in Hall.
    rewrite (contribution_empty r Hall), lookup_empty in H.
    destruct H; discriminate.
Qed.

(** C1: a resource contributes an entry to the mapping exactly when it is
    a DAV [response] element one of whose properties is a DAV
    [getcontenttype] with the text [text/vcard] or [text/x-vcard]; the
    keys of the mapping are those its resources contribute. *)
Theorem vcard_resources_only root :
  (forall r, contribution r <> ∅ <->
             is_response r = true /\ qualifies r = true)
  /\ (forall r m, response_body m r = contribution r ∪ m)
  /\ (forall k, is_Some (process_element root !! k) <->
                exists r, In r (children root)
                          /\ is_response r = true /\ qualifies r = true
                          /\ is_Some (contribution r !! k)).
Proof.
  split; [exact contribution_nonempty |].
  split; [intros r m; apply response_body_union |].
  intros k. unfold process_element. rewrite response_loop_lookup. split.
  - intros [H | (r & Hin & H)].
    + rewrite lookup_empty in H. destruct H; discriminate.
    + exists r. split; [exact Hin |].
      assert (Hne : contribution r <> ∅).
      { intros He. rewrite He, lookup_empty in H. destruct H; discriminate. }
      apply contribution_nonempty in Hne as [H1 H2]. auto.
  - intros (r & Hin & _ & _ & H). right. eauto.
Qed.

(** *** The marker *)

Lemma last_getetag_none d ps :
  forallb (fun p => negb (is_getetag p)) ps = true -> last_getetag d ps = d.
Proof.
  revert d; induction ps as [|p ps IH]; intros d Hps; [reflexivity |].
  simpl in Hps. apply andb_prop in Hps as [Hp Hps].
  unfold last_getetag in *. simpl.
  apply negb_true_iff in Hp. rewrite Hp. apply IH, Hps.
Qed.

Lemma last_getetag_last d ps p qs :
  is_getetag p = true ->
  forallb (fun q => negb (is_getetag q)) qs = true ->
  last_getetag d (ps ++ p :: qs) = text p.
Proof.
  intros Hp Hqs. rewrite last_getetag_app.
  change (last_getetag (last_getetag d ps) (p :: qs))
    with (last_getetag (if is_getetag p then text p
                        else last_getetag d ps) qs).
  rewrite Hp. apply last_getetag_none, Hqs.
Qed.

(** With the [href] of the resource fixed to [k] from the start of the
    loop on, the resource writes one entry, under [k]. *)
Lemma response_loop_fixed_href m k rs (e0 : pystr) :
  forallb (fun refprop => negb (is_href refprop)) rs = true ->
  let l' := fold_left refprop_body rs (Locals k e0 false m) in
  abook l' = (if Props.insert l' then <[k := etag l']> m else m).
Proof.
  intros Hrs l'.
  destruct (refprop_loop_entry_at m k rs (Locals k e0 false m) Hrs) as [_ Ha];
    [split; reflexivity | exact Ha].
Qed.

(** Whatever the layout, once [insert] is up some entry carries the
    marker seen so far. *)
Lemma prop_loop_marker props l :
  (Props.insert l = true -> exists k, abook l !! k = Some (etag l)) ->
  let l' := fold_left prop_body props l in
  Props.insert l' = true -> exists k, abook l' !! k = Some (etag l').
Proof.
  revert l; induction props as [|prop props IH]; intros l Hl; simpl;
    [exact Hl |].
  apply IH. rewrite prop_body_spec. simpl.
  intros Hi. rewrite Hi. eexists. apply lookup_insert_eq.
Qed.

Lemma refprop_loop_marker rs l :
  (Props.insert l = true -> exists k, abook l !! k = Some (etag l)) ->
  let l' := fold_left refprop_body rs l in
  Props.insert l' = true -> exists k, abook l' !! k = Some (etag l').
Proof.
  revert l; induction rs as [|refprop rs IH]; intros l Hl; simpl;
    [exact Hl |].
  apply IH. unfold refprop_body. apply prop_loop_marker.
  destruct (String.eqb (tag refprop) (namespace +:+ "href")); exact Hl.
Qed.

Lemma marker_written m r :
  is_response r = true -> qualifies r = true ->
  exists k, response_body m r !! k = Some (last_getetag (Some "") (properties r)).
Proof.
  intros Hr Hq. unfold response_body, namespace.
  change ("{DAV:}" +:+ "response") with "{DAV:}response".
  unfold is_response in Hr. rewrite Hr.
  destruct (response_loop_scan r m) as (He & Hi). simpl in He, Hi.
  rewrite <- He. apply refprop_loop_marker.
  - simpl. discriminate.
  - rewrite Hi. exact Hq.
Qed.

(** C10: a qualifying resource without an [href] child writes its entry
    under the empty string, and the returned mapping has that key. *)
Theorem response_without_href root r :
  In r (children root) ->
  is_response r = true -> qualifies r = true ->
  forallb (fun refprop => negb (is_href refprop)) (children r) = true ->
  contribution r = {[ Some "" := last_getetag (Some "") (properties r) ]}
  /\ is_Some (process_element root !! Some "").
Proof.
  intros Hin Hr Hq Hno.
  assert (Hc : contribution r
               = {[ Some "" := last_getetag (Some "") (properties r) ]}).
  { destruct (response_loop_scan r ∅) as (He & Hi).
    unfold contribution, response_body, namespace.
    change ("{DAV:}" +:+ "response") with "{DAV:}response".
    unfold is_response in Hr. rewrite Hr, <- He.
    pose proof (response_loop_fixed_href ∅ (Some "") (children r) (Some "") Hno)
      as Ha.
    simpl in Ha, Hi. rewrite Ha, Hi, Hq. reflexivity. }
  split; [exact Hc |].
  unfold process_element. apply response_loop_lookup. right.
  exists r. split; [exact Hin |].
  rewrite Hc, lookup_singleton_eq. eauto.
Qed.

End Listing.

(** The reader turns the listings into the trees used below. *)
Lemma reader_trees :
  Fixture.XML Fixture.listing = inr Fixture.listing_tree
  /\ Fixture.XML Fixture.listing_empty_getetag = inr Fixture.empty_getetag_tree
  /\ Fixture.XML Fixture.listing_without_href = inr Fixture.without_href_tree.
Proof. repeat split; vm_compute; reflexivity. Qed.

(** The listing in which the vCard has an empty [getetag] element: its
    marker is [None]. *)
Lemma empty_getetag_marker_none :
  Props.qualifies (Fixture.first_child Fixture.empty_getetag_tree) = true
  /\ Props.process_element Fixture.empty_getetag_tree !! Some "/a.vcf"
     = Some None.
Proof. split; vm_compute; reflexivity. Qed.

Lemma response_without_href_witness :
  Props.contribution Fixture.without_href_response
  = {[ Some "" := Some "e1" ]}
  /\ is_Some (Props.process_element Fixture.without_href_tree !! Some "").
Proof.
  exact (response_without_href Fixture.without_href_tree
           Fixture.without_href_response
           (or_introl eq_refl) eq_refl eq_refl eq_refl).
Defined.

(** ** [str.count] *)

Section Count.

Implicit Types (s sub pre post : string).

Lemma prefix_append sub post : String.prefix sub (sub +:+ post) = true.
Proof.
  induction sub as [|c sub IH]; [now destruct post |].
  rewrite append_cons. simpl. destruct (ascii_dec c c); [exact IH | congruence].
Qed.

Lemma prefix_split sub s :
  String.prefix sub s = true -> exists post, s = sub +:+ post.
Proof.
  revert s; induction sub as [|c sub IH]; intros s Hp.
  - exists s. reflexivity.
  - destruct s as [|d s]; [discriminate |]. simpl in Hp.
    destruct (ascii_dec c d) as [-> | _]; [| discriminate].
    destruct (IH s Hp) as [post ->]. exists post. now rewrite append_cons.
Qed.

Lemma count_from_nonneg sub s : forall skip, 0 <= count_from sub skip s.
Proof.
  induction s as [|c s IH]; intros skip; cbn [count_from]; [lia |].
  destruct skip; [| apply IH].
  destruct (String.prefix sub (String c s)); [| apply IH].
  pose proof (IH (String.length sub - 1)%nat). lia.
Qed.

(** The count is zero exactly when no position from [skip] on starts an
    occurrence. *)
Lemma count_from_zero sub s :
  sub <> "" ->
  forall skip,
    count_from sub skip s = 0 <->
    (forall pre post, s = pre +:+ post -> (skip <= String.length pre)%nat ->
                      String.prefix sub post = false).
Proof.
  intros Hsub. induction s as [|c s IH]; intros skip.
  - simpl. split; [| reflexivity]. intros _ pre post Heq _.
    destruct pre; [| discriminate]. change ("" = post) in Heq. subst post.
    destruct sub; [congruence | reflexivity].
  - cbn [count_from]. destruct skip as [|skip].
    + destruct (String.prefix sub (String c s)) eqn:Hp.
      * pose proof (count_from_nonneg sub s (String.length sub - 1)%nat).
        split; [lia |]. intros Hall.
        specialize (Hall "" (String c s) eq_refl ltac:(simpl; lia)). congruence.
      * rewrite IH. split.
        -- intros Hall pre post Heq _. destruct pre as [|d pre].
           ++ change (String c s = post) in Heq. now subst post.
           ++ rewrite append_cons in Heq. injection Heq as _ Heq.
              apply (Hall pre post Heq). lia.
        -- intros Hall pre post Heq _.
           apply (Hall (String c pre) post); [now rewrite append_cons, Heq |].
           simpl; lia.
    + rewrite IH. split.
      * intros Hall pre post Heq Hlen. destruct pre as [|d pre];
          [simpl in Hlen; lia |].
        rewrite append_cons in Heq. injection Heq as _ Heq.
        apply (Hall pre post Heq). simpl in Hlen. lia.
      * intros Hall pre post Heq Hlen.
        apply (Hall (String c pre) post); [now rewrite append_cons, Heq |].
        simpl; lia.
Qed.

(** [s.count(sub) == 0] says that [sub] does not occur in [s]. *)
Lemma count_zero s sub :
  sub <> "" -> (count s sub = 0 <-> ~ contains s sub).
Proof.
  intros Hsub. unfold count, contains.
  destruct sub as [|c sub]; [congruence |].
  rewrite (count_from_zero (String c sub) s Hsub 0). split.
  - intros Hall (pre & post & Heq).
    specialize (Hall pre (String c sub +:+ post) Heq ltac:(lia)).
    rewrite prefix_append in Hall. discriminate.
  - intros Hno pre post Heq _.
    destruct (String.prefix (String c sub) post) eqn:Hp; [| reflexivity].
    exfalso. apply Hno. apply prefix_split in Hp as [post' ->]. eauto.
Qed.

End Count.

(** ** The client *)

Section Client.
Context `{Collaborators}.
Import PyCardDAV.
Local Open Scope list_scope.

Implicit Types (self : t) (w : world) (etag : pystr).
Implicit Types (card vref xml : string).

(** One round trip, whatever the answer: it is logged, and the server
    moves on. *)
Lemma send_spec (rq : request) w :
  send rq w =
  (match fst (handle rq (server w)) with
   | inl e => inl (RequestException e)
   | inr rs => inr rs
   end,
   World (snd (handle rq (server w))) (random w)
         (events w ++ [Sent rq (fst (handle rq (server w)))])).
Proof.
  unfold send. destruct (handle rq (server w)) as [[e | rs] sv]; reflexivity.
Qed.

Ltac run :=
  unfold get_abook;
  unfold update_vcard, delete_vcard, _get_xml_props, _process_xml_props,
         get_vcard, _check_write_support, http, headers;
  unfold bind, ret, raise, emit.

(** *** Update and delete *)

(** [update_vcard] returns normally whatever the server answers. *)
Lemma update_vcard_ignores_answer self card vref etag w :
  let base := <[ "content-type" := "text/vcard" ]> (default_headers self) in
  let rq := Request PUT (url_base self +:+ vref)
                    (match etag with
                     | Some e => <[ "If-Match" := e ]> base
                     | None => base
                     end)
                    (Some card) (settings_auth self) (settings_verify self) in
  write_support self = true ->
  forall rs, fst (handle rq (server w)) = inr rs ->
  fst (update_vcard self card vref etag w) = inr tt.
Proof.
  intros base rq Hws rs Hrs. run. rewrite Hws. cbv iota beta.
  change (Request PUT _ _ _ _ _) with rq. rewrite send_spec, Hrs. reflexivity.
Qed.

(** C2: a client with write support sends one request per update or
    delete; its [If-Match] header is the marker the caller gave, and is
    absent when the caller gave [None]. *)
Theorem if_match_header (resource debug user passwd card vref : string)
    (verify : bool) etag w :
  let self := init resource debug user passwd verify true in
  let base := <[ "content-type" := "text/vcard" ]>
                ({[ "User-Agent" := "pyCardDAV" ]} : gmap string string) in
  let hdrs := match etag with
              | Some e => <[ "If-Match" := e ]> base
              | None => base
              end in
  let put := Request PUT (url_base self +:+ vref) hdrs (Some card)
                     (user, passwd) verify in
  let del := Request DELETE (url_base self +:+ vref) hdrs None
                     (user, passwd) verify in
  events (snd (update_vcard self card vref etag w))
    = events w ++ [Sent put (fst (handle put (server w)))]
  /\ events (snd (delete_vcard self vref etag w))
     = events w ++ [Sent del (fst (handle del (server w)))]
  /\ hdrs !! "If-Match" = etag.
Proof.
  intros self base hdrs put del. split; [| split].
  - run. change (write_support self) with true. cbv iota beta.
    change (Request PUT _ _ _ _ _) with put. rewrite send_spec.
    destruct (fst (handle put (server w))) as [e | rs]; reflexivity.
  - run. change (write_support self) with true. cbv iota beta.
    change (Request DELETE _ _ _ _ _) with del. rewrite send_spec.
    destruct (fst (handle del (server w))) as [e | rs]; [reflexivity |].
    destruct (ok rs); reflexivity.
  - subst hdrs. destruct etag as [e |].
    + apply lookup_insert_eq.
    + subst base. vm_compute. reflexivity.
Qed.

(** *** The listing *)

(** C3: when the answer to PROPFIND has no [DAV] header, or one in which
    [addressbook] does not occur, [get_abook] exits with status 1 (the
    failure the specification calls ProtocolMismatch) after one message
    and without calling the XML parser. *)
Theorem propfind_requires_addressbook self w (rs : response) (sv : Server) :
  let rq := Request PROPFIND (url_resource self)
                    (<[ "Depth" := "1" ]> (default_headers self)) None
                    (settings_auth self) (settings_verify self) in
  handle rq (server w) = (inr rs, sv) ->
  (forall dav, header_get (resp_headers rs) "DAV" = Some dav ->
               ~ contains dav "addressbook") ->
  fst (get_abook self w) = inl (SystemExit 1)
  /\ exists note,
       events (snd (get_abook self w)) = events w ++ [Sent rq (inr rs); note]
       /\ (note = StderrWrite "URL is not a CardDAV resource"
           \/ note = Printed "URL is not a DAV resource").
Proof.
  intros rq Hh Hdav. run. cbv beta zeta. fold rq. rewrite send_spec, Hh.
  cbn [fst snd]. cbv beta iota.
  destruct (header_get (resp_headers rs) "DAV") as [dav |] eqn:Hd.
  - assert (Hc : count dav "addressbook" = 0)
      by (apply count_zero; [discriminate | now apply Hdav]).
    rewrite Hc. cbn. split; [reflexivity |].
    eexists. rewrite <- app_assoc. split; [reflexivity | left; reflexivity].
  - cbn. split; [reflexivity |].
    eexists. rewrite <- app_assoc. split; [reflexivity | right; reflexivity].
Qed.

(** X9: when the answer to PROPFIND advertises [addressbook] in its [DAV]
    header, [get_abook] hands the body to the parser after that one
    request and returns the parsed listing, or fails with the parser's
    error. *)
Lemma get_abook_parses self w (rs : response) (sv : Server) dav :
  let rq := Request PROPFIND (url_resource self)
                    (<[ "Depth" := "1" ]> (default_headers self)) None
                    (settings_auth self) (settings_verify self) in
  handle rq (server w) = (inr rs, sv) ->
  header_get (resp_headers rs) "DAV" = Some dav ->
  contains dav "addressbook" ->
  events (snd (get_abook self w))
  = events w ++ [Sent rq (inr rs); XMLCalled (content rs)]
  /\ fst (get_abook self w)
     = match XML (content rs) with
       | inl message => inl (XMLSyntaxError message)
       | inr element => inr (Props.process_element element)
       end.
Proof.
  intros rq Hh Hd Hc. run. cbv beta zeta. fold rq. rewrite send_spec, Hh.
  cbn [fst snd]. cbv beta iota. rewrite Hd.
  destruct (Z.eqb_spec (count dav "addressbook") 0) as [H0 | _].
  - apply count_zero in H0; [contradiction | discriminate].
  - cbn. rewrite <- app_assoc.
    destruct (XML (content rs)); split; reflexivity.
Qed.

(** C8 (amended): a body the XML parser rejects makes
    [_process_xml_props] fail with the parser's error; the empty body,
    which no XML parser accepts, is no exception. *)
Theorem rejected_body_fails xml w message :
  XML xml = inl message ->
  fst (_process_xml_props xml w) = inl (XMLSyntaxError message)
  /\ events (snd (_process_xml_props xml w)) = events w ++ [XMLCalled xml].
Proof. intros Hx. run. rewrite Hx. split; reflexivity. Qed.

(** The empty mapping comes from a document without vCards. *)
Lemma listing_without_vcards xml w root :
  XML xml = inr root ->
  forallb (fun r => negb (Props.is_response r && Props.qualifies r))
          (children root) = true ->
  fst (_process_xml_props xml w) = inr ∅.
Proof.
  intros Hx Hall. run. rewrite Hx. simpl.
  now rewrite (process_element_empty root Hall).
Qed.

(** *** Create *)

Lemma get_random_href_spec w :
  get_random_href w =
  (inr (Href.nth_href randint 0 (random w)),
   World (server w) (Href.after randint 1 (random w)) (events w)).
Proof.
  unfold get_random_href, Href.nth_href, Href.after.
  destruct (Href.get_random_href randint (random w)); reflexivity.
Qed.

(** One round of the loop: a fresh identifier, one request, and either the
    result, the rejected answer kept in [response], or the error of the
    transport. *)
Lemma upload_round_spec self card (x : Z) (prev : option response) w :
  let rq := upload_request self card (Href.nth_href randint 0 (random w)) in
  let answer := fst (handle rq (server w)) in
  upload_round self card x prev w =
  (match answer with
   | inl e => inl (RequestException e)
   | inr rs =>
       inr (if ok rs then inl (path (urlparse (url rq)), marker_of rs)
            else inr (Some rs))
   end,
   World (snd (handle rq (server w))) (Href.after randint 1 (random w))
         (events w ++ [Sent rq answer])).
Proof.
  intros rq answer. unfold upload_round, bind.
  rewrite get_random_href_spec. unfold http, headers.
  change (Request PUT _ _ _ _ _) with rq.
  rewrite send_spec. cbn [server random events]. fold answer.
  destruct answer as [e | rs]; [reflexivity |].
  unfold ret, marker_of. destruct (ok rs); reflexivity.
Qed.

Lemma after_succ (n : nat) (g : Random) :
  Href.after randint (S n) g = Href.after randint n (Href.after randint 1 g).
Proof. reflexivity. Qed.

(** The loop goes on exactly when the answer is a rejection. *)
Lemma upload_loop_cons self card (x : Z) (items : list Z)
    (prev : option response) w :
  let rq := upload_request self card (Href.nth_href randint 0 (random w)) in
  let answer := fst (handle rq (server w)) in
  let w1 := World (snd (handle rq (server w)))
                  (Href.after randint 1 (random w))
                  (events w ++ [Sent rq answer]) in
  for_each (x :: items) (upload_round self card) prev w =
  match answer with
  | inl e => (inl (RequestException e), w1)
  | inr rs =>
      if ok rs then (inr (inl (path (urlparse (url rq)), marker_of rs)), w1)
      else for_each items (upload_round self card) (Some rs) w1
  end.
Proof.
  intros rq answer w1. cbn [for_each]. unfold bind.
  rewrite upload_round_spec. fold rq. fold answer. fold w1.
  destruct answer as [e | rs]; [reflexivity |].
  destruct (ok rs); reflexivity.
Qed.

(** The loop as a whole.  [attempts] are the requests of the call with
    their answers, in order. *)
Lemma upload_loop_run self card (items : list Z) :
  forall (prev : option response) w,
  exists attempts : list (request * (transport_error + response)),
    events (snd (for_each items (upload_round self card) prev w))
      = events w ++ map sent attempts
    /\ (length attempts <= length items)%nat
    /\ (forall i rq a, attempts !! i = Some (rq, a) ->
          rq = upload_request self card (Href.nth_href randint i (random w))
          /\ ((S i < length attempts)%nat ->
              exists rs, a = inr rs /\ ok rs = false))
    /\ match fst (for_each items (upload_round self card) prev w) with
       | inl exn =>
           exists rq e, last attempts = Some (rq, inl e)
                        /\ exn = RequestException e
       | inr (inl result) =>
           exists rq rs, last attempts = Some (rq, inr rs) /\ ok rs = true
                         /\ result = (path (urlparse (url rq)), marker_of rs)
       | inr (inr response) =>
           length attempts = length items
           /\ match last attempts with
              | Some (_, a) =>
                  exists rs, a = inr rs /\ ok rs = false /\ response = Some rs
              | None => response = prev
              end
       end.
Proof.
  induction items as [|x items IH]; intros prev w.
  - exists []. cbn. rewrite app_nil_r. split; [reflexivity |].
    split; [lia |]. split; [| auto].
    intros i rq a Hi. rewrite lookup_nil in Hi. discriminate.
  - rewrite upload_loop_cons.
    set (rq := upload_request self card (Href.nth_href randint 0 (random w))).
    set (w1 := World _ _ _).
    destruct (fst (handle rq (server w))) as [e | rs] eqn:Ha.
    + exists [(rq, inl e)]. split; [| split; [| split]].
      * reflexivity.
      * cbn. lia.
      * intros i rq' a Hi. destruct i as [|i]; cbn in Hi;
          [| discriminate].
        injection Hi as <- <-. split; [reflexivity | cbn; lia].
      * cbn. eauto.
    + destruct (ok rs) eqn:Hok.
      * exists [(rq, inr rs)]. split; [| split; [| split]].
        -- reflexivity.
        -- cbn. lia.
        -- intros i rq' a Hi. destruct i as [|i]; cbn in Hi;
             [| discriminate].
           injection Hi as <- <-. split; [reflexivity | cbn; lia].
        -- cbn. eauto 6.
      * destruct (IH (Some rs) w1) as (attempts & Hev & Hlen & Hreq & Hres).
        exists ((rq, inr rs) :: attempts).
        split; [| split; [| split]].
        -- rewrite Hev. subst w1. cbn [events map]. rewrite <- app_assoc.
           reflexivity.
        -- cbn. lia.
        -- intros i rq' a Hi. destruct i as [|i].
           ++ cbn in Hi. injection Hi as <- <-. split; [reflexivity |].
              intros _. eauto.
           ++ cbn in Hi. destruct (Hreq i rq' a Hi) as [Hrq Hrej]. split.
              ** rewrite Hrq. subst w1. cbn [random].
                 unfold Href.nth_href. rewrite after_succ. reflexivity.
              ** cbn [length]. intros Hlt. apply Hrej. lia.
        -- destruct (fst (for_each items (upload_round self card) (Some rs) w1))
             as [exn | [result | response]].
           ++ destruct Hres as (rq' & e & Hl & ->). exists rq', e.
              split; [| reflexivity].
              destruct attempts; [discriminate | exact Hl].
           ++ destruct Hres as (rq' & rs' & Hl & Hok' & ->). exists rq', rs'.
              split; [| auto].
              destruct attempts; [discriminate | exact Hl].
           ++ destruct Hres as (Hn & Hl). split; [cbn; lia |].
              destruct attempts as [|a0 attempts]; [cbn in *; eauto |].
              change (last (_ :: a0 :: attempts)) with (last (a0 :: attempts)).
              destruct (last (a0 :: attempts)) as [[rq' a] |] eqn:Hlast;
                [exact Hl |].
              apply last_None in Hlast. discriminate.
Qed.

Lemma upload_new_card_spec self card w :
  write_support self = true ->
  let loop := for_each [0; 1; 2; 3; 4] (upload_round self card) None w in
  upload_new_card self card w =
  (match fst loop with
   | inl e => inl e
   | inr (inl result) => inr result
   | inr (inr (Some response)) => inl (UploadFailed (reason response))
   | inr (inr None) => inl (UnboundLocalError "response")
   end, snd loop).
Proof.
  intros Hws loop. unfold upload_new_card, _check_write_support, bind, ret.
  rewrite Hws. fold loop.
  destruct loop as [[e | [result | [response |]]] w']; reflexivity.
Qed.

(** C4: a create call makes between one and five attempts; the attempt
    number [i] is a PUT of the card to [<collection>/<candidate>.vcf] for
    the [i]-th identifier the generator yields during the call, with
    [If-None-Match: *]; every attempt but the last was rejected by the
    server; and [UploadFailed] is raised exactly when five attempts were
    rejected, with the reason of the last answer. *)
Theorem upload_attempts self card w :
  write_support self = true ->
  exists attempts : list (request * (transport_error + response)),
    events (snd (upload_new_card self card w)) = events w ++ map sent attempts
    /\ (1 <= length attempts <= 5)%nat
    /\ (forall i rq a, attempts !! i = Some (rq, a) ->
          meth rq = PUT
          /\ url rq = url_resource self +:+ "/"
                      +:+ Href.nth_href randint i (random w) +:+ ".vcf"
          /\ data rq = Some card
          /\ req_headers rq !! "If-None-Match" = Some "*"
          /\ ((S i < length attempts)%nat ->
              exists rs, a = inr rs /\ ok rs = false))
    /\ (forall why,
          fst (upload_new_card self card w) = inl (UploadFailed why) <->
          length attempts = 5%nat
          /\ exists rq rs, last attempts = Some (rq, inr rs)
                           /\ ok rs = false /\ reason rs = why).
Proof.
  intros Hws. rewrite (upload_new_card_spec self card w Hws). cbn [fst snd].
  destruct (upload_loop_run self card [0; 1; 2; 3; 4] None w)
    as (attempts & Hev & Hlen & Hreq & Hres).
  exists attempts. cbn [length] in Hlen.
  split; [exact Hev |]. split; [| split].
  - split; [| exact Hlen].
    destruct (fst (for_each [0; 1; 2; 3; 4] (upload_round self card) None w))
      as [exn | [result | response]].
    + destruct Hres as (rq & e & Hl & _).
      destruct attempts; [discriminate | cbn; lia].
    + destruct Hres as (rq & rs & Hl & _).
      destruct attempts; [discriminate | cbn; lia].
    + destruct Hres as [Hn _]. rewrite Hn. cbn. lia.
  - intros i rq a Hi. destruct (Hreq i rq a Hi) as [-> Hrej].
    repeat split; [apply lookup_insert_eq | exact Hrej].
  - intros why.
    destruct (fst (for_each [0; 1; 2; 3; 4] (upload_round self card) None w))
      as [exn | [result | response]].
    + destruct Hres as (rq & e & Hl & ->). split; [discriminate |].
      intros (_ & rq' & rs & Hl' & _). congruence.
    + destruct Hres as (rq & rs & Hl & Hok & _). split; [discriminate |].
      intros (_ & rq' & rs' & Hl' & Hok' & _).
      rewrite Hl in Hl'. injection Hl' as _ <-. congruence.
    + destruct Hres as [Hn Hl].
      destruct (last attempts) as [[rq a] |] eqn:Hlast.
      * destruct Hl as (rs & -> & Hok & ->). split.
        -- intros Heq. injection Heq as <-. split; [exact Hn |]. eauto.
        -- intros (_ & rq' & rs' & Hl' & _ & <-).
           injection Hl' as _ <-. reflexivity.
      * apply last_None in Hlast. subst attempts. discriminate.
Qed.

(** C5: when the server accepts an attempt of a create call, the call
    returns the path component of the URL of that attempt together with
    the [etag] header of the answer, or with the empty string when the
    answer has no such header. *)
Theorem upload_result self card w :
  write_support self = true ->
  forall (evs : list event) (rq : request) (rs : response),
    events (snd (upload_new_card self card w)) = events w ++ evs ->
    In (Sent rq (inr rs)) evs -> ok rs = true ->
    fst (upload_new_card self card w)
    = inr (path (urlparse (url rq)),
           match header_get (resp_headers rs) "etag" with
           | Some e => e
           | None => ""
           end).
Proof.
  intros Hws evs rq rs Hev Hin Hok.
  rewrite (upload_new_card_spec self card w Hws) in *. cbn [fst snd] in *.
  destruct (upload_loop_run self card [0; 1; 2; 3; 4] None w)
    as (attempts & Hev' & _ & Hreq & Hres).
  rewrite Hev' in Hev. apply app_inv_head in Hev. subst evs.
  apply in_map_iff in Hin as ([rq' a] & Heq & Hin).
  unfold sent in Heq. cbn in Heq. injection Heq as -> ->.
  apply list_elem_of_In, list_elem_of_lookup in Hin as [i Hi].
  assert (Hlast : last attempts = Some (rq, inr rs)).
  { rewrite last_lookup.
    pose proof (lookup_lt_Some _ _ _ Hi) as Hlt.
    destruct (Hreq i _ _ Hi) as [_ Hrej].
    destruct (Nat.eq_dec i (pred (length attempts))) as [<- | Hne];
      [exact Hi |].
    destruct Hrej as (rs' & Heq & Hno); [lia |].
    injection Heq as <-. congruence. }
  destruct (fst (for_each [0; 1; 2; 3; 4] (upload_round self card) None w))
    as [exn | [result | response]].
  - destruct Hres as (rq' & e & Hl & _). congruence.
  - destruct Hres as (rq' & rs' & Hl & _ & ->).
    rewrite Hlast in Hl. injection Hl as <- <-. reflexivity.
  - destruct Hres as [_ Hl]. rewrite Hlast in Hl.
    destruct Hl as (rs' & Heq & Hno & _). injection Heq as <-. congruence.
Qed.

End Client.

(** ** The client on the stand-in collaborators *)

(** X8: without write support the three writing operations send no
    request: each writes the refusal to stderr and exits with status 1. *)
Lemma write_gate `{Collaborators} (self : PyCardDAV.t) (card vref : string)
    (etag : pystr) (w : world) :
  PyCardDAV.write_support self = false ->
  let note := StderrWrite "Sorry, no write support for you. Please check the documentation.
" in
  PyCardDAV.update_vcard self card vref etag w
    = (inl (SystemExit 1), World (server w) (random w) (events w ++ [note]))
  /\ PyCardDAV.delete_vcard self vref etag w
     = (inl (SystemExit 1), World (server w) (random w) (events w ++ [note]))
  /\ PyCardDAV.upload_new_card self card w
     = (inl (SystemExit 1), World (server w) (random w) (events w ++ [note])).
Proof.
  intros Hws note.
  unfold PyCardDAV.update_vcard, PyCardDAV.delete_vcard,
    PyCardDAV.upload_new_card, PyCardDAV._check_write_support, bind, raise, emit.
  rewrite Hws. repeat split.
Qed.

Lemma propfind_requires_addressbook_witness :
  fst (PyCardDAV.get_abook (H := Fixture.collaborators) Fixture.client
         (Fixture.world_with
            [inr (Fixture.multistatus [("DAV", "1, 2, access-control")]
                                      Fixture.listing)]))
  = inl (SystemExit 1).
Proof.
  refine (proj1 (propfind_requires_addressbook (H := Fixture.collaborators)
                   Fixture.client
                   (Fixture.world_with
                      [inr (Fixture.multistatus [("DAV", "1, 2, access-control")]
                                                Fixture.listing)])
                   (Fixture.multistatus [("DAV", "1, 2, access-control")]
                                        Fixture.listing)
                   [] _ _)).
  - reflexivity.
  - intros dav Hdav. vm_compute in Hdav. injection Hdav as <-.
    apply count_zero; [discriminate | vm_compute; reflexivity].
Defined.

Lemma rejected_body_fails_witness :
  fst (PyCardDAV._process_xml_props (H := Fixture.collaborators) "<a><b></a>"
         (Fixture.world_with []))
  = inl (XMLSyntaxError "Opening and ending tag mismatch").
Proof.
  refine (proj1 (rejected_body_fails (H := Fixture.collaborators) "<a><b></a>"
                   (Fixture.world_with [])
                   "Opening and ending tag mismatch" _)).
  vm_compute. reflexivity.
Defined.

(** The empty body: the parser is called and rejects it. *)
Lemma empty_body_fails :
  fst (PyCardDAV._process_xml_props (H := Fixture.collaborators) ""
         (Fixture.world_with []))
  = inl (XMLSyntaxError "Document is empty")
  /\ events (snd (PyCardDAV._process_xml_props (H := Fixture.collaborators) ""
                    (Fixture.world_with [])))
     = [XMLCalled ""]
  /\ fst (PyCardDAV._process_xml_props (H := Fixture.collaborators) ""
            (Fixture.world_with []))
     <> inr ∅.
Proof.
  split; [vm_compute; reflexivity |].
  split; [vm_compute; reflexivity |].
  intros Heq. vm_compute in Heq. discriminate.
Qed.

Lemma upload_attempts_witness :
  exists attempts : list (request * (transport_error + response)),
    events (snd (PyCardDAV.upload_new_card (H := Fixture.collaborators)
                   Fixture.client "BEGIN:VCARD"
                   (Fixture.world_with
                      (repeat (inr Fixture.precondition_failed) 6))))
    = map PyCardDAV.sent attempts
    /\ length attempts = 5%nat
    /\ fst (PyCardDAV.upload_new_card (H := Fixture.collaborators)
              Fixture.client "BEGIN:VCARD"
              (Fixture.world_with (repeat (inr Fixture.precondition_failed) 6)))
       = inl (UploadFailed "Precondition Failed").
Proof.
  destruct (upload_attempts (H := Fixture.collaborators) Fixture.client
              "BEGIN:VCARD"
              (Fixture.world_with (repeat (inr Fixture.precondition_failed) 6))
              eq_refl)
    as (attempts & Hev & Hlen & _ & Hfail).
  exists attempts. split; [exact Hev |].
  assert (Hres : fst (PyCardDAV.upload_new_card (H := Fixture.collaborators)
                        Fixture.client "BEGIN:VCARD"
                        (Fixture.world_with
                           (repeat (inr Fixture.precondition_failed) 6)))
                 = inl (UploadFailed "Precondition Failed"))
    by (vm_compute; reflexivity).
  split; [| exact Hres].
  apply Hfail in Hres. exact (proj1 Hres).
Defined.

Lemma upload_result_witness :
  fst (PyCardDAV.upload_new_card (H := Fixture.collaborators)
         Fixture.client "BEGIN:VCARD"
         (Fixture.world_with [inr Fixture.precondition_failed;
                              inr Fixture.created_without_etag]))
  = inr ("/dav/abook/56651C2C-DAA96F5-421F1C8A.vcf", "").
Proof.
  rewrite (upload_result (H := Fixture.collaborators) Fixture.client
             "BEGIN:VCARD"
             (Fixture.world_with [inr Fixture.precondition_failed;
                                  inr Fixture.created_without_etag])
             eq_refl
             (events (snd (PyCardDAV.upload_new_card (H := Fixture.collaborators)
                             Fixture.client "BEGIN:VCARD"
                             (Fixture.world_with
                                [inr Fixture.precondition_failed;
                                 inr Fixture.created_without_etag]))))
             (PyCardDAV.upload_request Fixture.client "BEGIN:VCARD"
                (Href.nth_href Href.lcg_randint 1 12345))
             Fixture.created_without_etag).
  - vm_compute. reflexivity.
  - reflexivity.
  - right. left. vm_compute. reflexivity.
  - reflexivity.
Defined.

(** C6: an update the server rejects with 412 returns normally, as an
    accepted one does; the delete of the same resource raises. *)
Theorem rejected_update_returns_normally :
  fst (PyCardDAV.update_vcard (H := Fixture.collaborators) Fixture.client
         "BEGIN:VCARD" "/dav/abook/a.vcf" (Some "stale")
         (Fixture.world_with [inr Fixture.precondition_failed]))
  = inr tt
  /\ fst (PyCardDAV.update_vcard (H := Fixture.collaborators) Fixture.client
            "BEGIN:VCARD" "/dav/abook/a.vcf" (Some "v1")
            (Fixture.world_with [inr Fixture.no_content]))
     = inr tt
  /\ fst (PyCardDAV.delete_vcard (H := Fixture.collaborators) Fixture.client
            "/dav/abook/a.vcf" (Some "stale")
            (Fixture.world_with [inr Fixture.precondition_failed]))
     = inl (Exception "Precondition Failed" "").
Proof. repeat split; vm_compute; reflexivity. Qed.

(** * Further properties *)

(** ** The identifier generator: alphabet and round trip *)

Section TokenProperties.
Import Token.

Lemma upper_append (s t : string) : upper (s +:+ t) = upper s +:+ upper t.
Proof.
  induction s as [|c s IH]; [reflexivity |].
  rewrite append_cons. simpl. now rewrite IH, append_cons.
Qed.

Lemma string_forall_append (f : ascii -> bool) (s t : string) :
  string_forall f (s +:+ t) = string_forall f s && string_forall f t.
Proof.
  induction s as [|c s IH]; [reflexivity |].
  rewrite append_cons. simpl. now rewrite IH, andb_assoc.
Qed.

Lemma string_forall_impl (f g : ascii -> bool) (s : string) :
  (forall c, f c = true -> g c = true) ->
  string_forall f s = true -> string_forall g s = true.
Proof.
  intros Hfg. induction s as [|c s IH]; simpl; [reflexivity |].
  intros H. apply andb_prop in H as [Hc Hs].
  now rewrite (Hfg c Hc), (IH Hs).
Qed.

Lemma hex_digit_lower (d : Z) : 0 <= d < 16 -> is_hex_lower (hex_digit d) = true.
Proof.
  intros Hd.
  assert (Hcases : d = 0 \/ d = 1 \/ d = 2 \/ d = 3 \/ d = 4 \/ d = 5 \/ d = 6
                   \/ d = 7 \/ d = 8 \/ d = 9 \/ d = 10 \/ d = 11 \/ d = 12
                   \/ d = 13 \/ d = 14 \/ d = 15) by lia.
  repeat (destruct Hcases as [-> | Hcases]; [reflexivity |]).
  now subst d.
Qed.

Lemma format_x_digits_hex (fuel : nat) :
  forall (n : Z) (acc : string),
    string_forall is_hex_lower acc = true ->
    string_forall is_hex_lower (format_x_digits fuel n acc) = true.
Proof.
  induction fuel as [|fuel IH]; intros n acc Hacc;
    assert (Hd : is_hex_lower (hex_digit (n mod 16)) = true)
      by (apply hex_digit_lower, Z.mod_pos_bound; lia);
    cbn [format_x_digits].
  - cbn [string_forall]. now rewrite Hd, Hacc.
  - destruct (n / 16 =? 0).
    + cbn [string_forall]. now rewrite Hd, Hacc.
    + apply IH. cbn [string_forall]. now rewrite Hd, Hacc.
Qed.

Lemma format_x_hex (n : Z) :
  0 <= n -> string_forall is_hex_lower (format_x n) = true.
Proof.
  intros Hn. unfold format_x.
  destruct (Z.ltb_spec n 0); [lia |]. now apply format_x_digits_hex.
Qed.

Lemma upper_hex_char (c : ascii) :
  is_hex_lower c = true ->
  is_hex_upper (upper_ascii c) = true /\ lower_ascii (upper_ascii c) = c.
Proof.
  destruct c as [[] [] [] [] [] [] [] []]; intros H;
    try discriminate H; split; reflexivity.
Qed.

Lemma upper_hex (s : string) :
  string_forall is_hex_lower s = true ->
  string_forall is_hex_upper (upper s) = true /\ lower (upper s) = s.
Proof.
  induction s as [|c s IH]; simpl; [auto |].
  intros H. apply andb_prop in H as [Hc Hs].
  destruct (upper_hex_char c Hc) as [Hu Hl].
  destruct (IH Hs) as [Hus Hls].
  now rewrite Hu, Hus, Hl, Hls.
Qed.

Lemma is_hex_upper_not_hyphen (c : ascii) :
  is_hex_upper c = true -> Ascii.eqb "-" c = false.
Proof.
  destruct c as [[] [] [] [] [] [] [] []]; intros H;
    try discriminate H; reflexivity.
Qed.

Lemma split_on_none (s : string) :
  string_forall is_hex_upper s = true -> split_on "-" s = [s].
Proof.
  induction s as [|c s IH]; cbn [split_on string_forall]; [reflexivity |].
  intros H. apply andb_prop in H as [Hc Hs].
  now rewrite (is_hex_upper_not_hyphen c Hc), (IH Hs).
Qed.

Lemma split_on_hyphen (s rest : string) :
  string_forall is_hex_upper s = true ->
  split_on "-" (s +:+ String "-" rest) = s :: split_on "-" rest.
Proof.
  induction s as [|c s IH]; [reflexivity |].
  intros H. cbn [string_forall] in H. apply andb_prop in H as [Hc Hs].
  rewrite append_cons. cbn [split_on].
  now rewrite (is_hex_upper_not_hyphen c Hc), (IH Hs).
Qed.

Lemma hyphen_append (s : string) : "-" +:+ s = String "-" s.
Proof. reflexivity. Qed.

Context {G : Type} (randint : Z -> Z -> G -> Z * G).

(** X1: the identifier can be read back: splitting it at the hyphens and
    reading each part as a hexadecimal number gives the three numbers
    drawn, so two calls return the same identifier only when they drew
    the same numbers. *)
Theorem token_round_trip (g : G) (a b c : Z) :
  Href.draws randint g = (a, b, c) ->
  0 <= a -> 0 <= b -> 0 <= c ->
  token_draws (fst (Href.get_random_href randint g)) = [a; b; c].
Proof.
  intros Hdraws Ha Hb Hc.
  rewrite get_random_href_draws, Hdraws.
  destruct (upper_hex _ (format_x_hex a Ha)) as [Hua Hla].
  destruct (upper_hex _ (format_x_hex b Hb)) as [Hub Hlb].
  destruct (upper_hex _ (format_x_hex c Hc)) as [Huc Hlc].
  rewrite !upper_append. change (upper "-") with "-".
  unfold token_draws.
  rewrite !hyphen_append.
  rewrite (split_on_hyphen _ _ Hua), (split_on_hyphen _ _ Hub),
    (split_on_none _ Huc).
  cbn [map]. rewrite Hla, Hlb, Hlc.
  now rewrite !format_x_value.
Qed.

(** X2: whatever is drawn, the identifier is made of the characters
    [0-9], [A-F] and the hyphen only. *)
Theorem token_alphabet (g : G) :
  string_forall token_char (fst (Href.get_random_href randint g)) = true.
Proof.
  rewrite get_random_href_draws.
  destruct (Href.draws randint g) as [[a b] c].
  assert (Hpart : forall n, string_forall token_char (upper (format_x n)) = true).
  { intros n. unfold format_x. destruct (n <? 0).
    - cbn [upper string_forall].
      change (token_char (upper_ascii "-")) with true. cbn [andb].
      eapply string_forall_impl;
        [| apply upper_hex, format_x_digits_hex; reflexivity].
      intros ch Hch. unfold token_char. now rewrite Hch.
    - eapply string_forall_impl;
        [| apply upper_hex, format_x_digits_hex; reflexivity].
      intros ch Hch. unfold token_char. now rewrite Hch. }
  rewrite !upper_append, !string_forall_append, !Hpart. reflexivity.
Qed.

End TokenProperties.

Lemma token_round_trip_witness :
  Token.token_draws (fst (Href.get_random_href Href.lcg_randint 12345))
  = [12345; 1406932606; 654583775].
Proof.
  apply (token_round_trip Href.lcg_randint 12345 12345 1406932606 654583775);
    [vm_compute; reflexivity | lia | lia | lia].
Defined.

Lemma get_random_href_length_le_29_witness :
  (5 <= String.length (fst (Href.get_random_href Token.max_randint tt))
   <= 29)%nat.
Proof.
  apply (get_random_href_length_le_29 Token.max_randint tt).
  intros lo hi s Hle. simpl. lia.
Defined.

(** ** The parser: which children count, and which entry stays *)

Section ListingMore.
Import Props.

Implicit Types (l : locals) (m : gmap pystr pystr) (k v : pystr).
Implicit Types (p r root h : element) (ps rs pre post : list element).

Lemma response_body_skip m r : is_response r = false -> response_body m r = m.
Proof.
  intros Hr. unfold response_body, namespace.
  change ("{DAV:}" +:+ "response") with "{DAV:}response".
  unfold is_response in Hr. now rewrite Hr.
Qed.

Lemma response_loop_filter rs m :
  fold_left response_body rs m
  = fold_left response_body (List.filter is_response rs) m.
Proof.
  revert m; induction rs as [|r rs IH]; intros m; [reflexivity |].
  cbn [fold_left List.filter]. destruct (is_response r) eqn:Hr.
  - cbn [fold_left]. apply IH.
  - rewrite (response_body_skip m r Hr). apply IH.
Qed.

(** X4: only the children of the root tagged [{DAV:}response] count: two
    documents with the same [response] children, in the same order, give
    the same mapping, whatever else their roots hold. *)
Theorem only_responses_count root root' :
  List.filter is_response (children root)
  = List.filter is_response (children root') ->
  process_element root = process_element root'.
Proof.
  intros Heq. unfold process_element.
  rewrite (response_loop_filter (children root)),
    (response_loop_filter (children root')), Heq.
  reflexivity.
Qed.

Lemma response_loop_untouched rs m k :
  (forall r, In r rs -> contribution r !! k = None) ->
  fold_left response_body rs m !! k = m !! k.
Proof.
  revert m; induction rs as [|r rs IH]; intros m Hrs; [reflexivity |].
  cbn [fold_left]. rewrite IH by (intros r' Hin; apply Hrs; now right).
  rewrite response_body_union, lookup_union_r; [reflexivity |].
  apply Hrs. now left.
Qed.

(** X5: when a path is listed more than once the last listing wins: the
    entry under a key is the one written by the last resource that writes
    that key. *)
Theorem last_response_wins root pre r post k :
  children root = (pre ++ r :: post)%list ->
  (forall r', In r' post -> contribution r' !! k = None) ->
  is_Some (contribution r !! k) ->
  process_element root !! k = contribution r !! k.
Proof.
  intros Hch Hpost [v Hv]. unfold process_element.
  rewrite Hch, fold_left_app. cbn [fold_left].
  rewrite (response_loop_untouched post _ k Hpost), response_body_union.
  rewrite Hv. now apply lookup_union_Some_l.
Qed.

(** *** Keys and markers come from the document *)

Lemma last_getetag_cases (d : pystr) ps :
  last_getetag d ps = d
  \/ exists p, In p ps /\ is_getetag p = true /\ text p = last_getetag d ps.
Proof.
  revert d; induction ps as [|q ps IH]; intros d; [now left |].
  change (last_getetag d (q :: ps))
    with (last_getetag (if is_getetag q then text q else d) ps).
  destruct (IH (if is_getetag q then text q else d)) as [Heq | (p & Hin & Hp & Ht)].
  - rewrite Heq. destruct (is_getetag q) eqn:Hq.
    + right. exists q. repeat split; [now left | exact Hq].
    + now left.
  - right. exists p. repeat split; [now right | exact Hp | exact Ht].
Qed.

Section Provenance.
Variables (K V : pystr -> Prop).

Lemma prop_loop_from_document (props : list element) l :
  (forall prop p, In prop props -> In p (children prop) ->
                  is_getetag p = true -> V (text p)) ->
  Origin.from_document K V l -> Origin.from_document K V (fold_left prop_body props l).
Proof.
  revert l; induction props as [|prop props IH]; intros l Hprops Hl;
    [exact Hl |].
  cbn [fold_left].
  apply IH;
    [intros prop' p Hin Hp Hg; apply (Hprops prop' p); [now right | assumption ..] |].
  destruct Hl as (Hk & Hv & Hm). rewrite prop_body_spec.
  assert (Hv' : V (last_getetag (etag l) (children prop))).
  { destruct (last_getetag_cases (etag l) (children prop))
      as [-> | (p & Hin & Hp & <-)]; [exact Hv |].
    apply (Hprops prop p); [now left | exact Hin | exact Hp]. }
  unfold Origin.from_document; cbn [href etag abook].
  split; [exact Hk |]. split; [exact Hv' |].
  intros k v.
  destruct (Props.insert l || existsb is_vcard_type (children prop));
    [| apply Hm].
  rewrite lookup_insert_Some. intros [[<- <-] | [_ Hkv]]; [auto | now apply Hm].
Qed.

Lemma refprop_loop_from_document rs l :
  (forall refprop, In refprop rs -> is_href refprop = true -> K (text refprop)) ->
  (forall refprop prop p,
     In refprop rs -> In prop (children refprop) -> In p (children prop) ->
     is_getetag p = true -> V (text p)) ->
  Origin.from_document K V l -> Origin.from_document K V (fold_left refprop_body rs l).
Proof.
  revert l; induction rs as [|refprop rs IH]; intros l Hk Hv Hl; [exact Hl |].
  cbn [fold_left].
  apply IH;
    [intros rp Hin Hh; apply Hk; [now right | exact Hh]
    | intros rp prop p Hin1 Hin2 Hin3 Hp;
      apply (Hv rp prop p); [now right | assumption ..] |].
  unfold refprop_body, namespace.
  change ("{DAV:}" +:+ "href") with "{DAV:}href".
  apply prop_loop_from_document;
    [intros prop p Hin Hp Hg; apply (Hv refprop prop p);
     [now left | assumption ..] |].
  destruct (String.eqb (tag refprop) "{DAV:}href") eqn:Hh; [| exact Hl].
  destruct Hl as (_ & Hve & Hm). split; [| split; assumption].
  apply Hk; [now left | exact Hh].
Qed.

End Provenance.

(** X6: every key of the mapping is the text of an [href] child of a
    [response] element of the document, as lxml gives it, or the empty
    string the loop starts from; every marker is the text of a [getetag]
    property of that resource, or the empty string. *)
Theorem entries_come_from_document root k v :
  process_element root !! k = Some v ->
  exists r, In r (children root) /\ is_response r = true
    /\ (k = Some ""
        \/ exists h, In h (children r) /\ is_href h = true /\ text h = k)
    /\ (v = Some ""
        \/ exists p, In p (properties r) /\ is_getetag p = true /\ text p = v).
Proof.
  intros Hkv.
  assert (Hsome : is_Some (process_element root !! k)) by (rewrite Hkv; eauto).
  unfold process_element in *.
  revert Hkv Hsome. generalize (children root) at 1 2 3 as rs.
  intros rs. pattern rs. apply rev_ind; clear rs.
  - cbn. rewrite lookup_empty. discriminate.
  - intros r rs IH. rewrite fold_left_app. cbn [fold_left].
    rewrite response_body_union. intros Hkv _.
    apply lookup_union_Some_raw in Hkv as [Hr | [_ Hrest]].
    + assert (Hne : contribution r <> ∅)
        by (intros He; rewrite He, lookup_empty in Hr; discriminate).
      apply contribution_nonempty in Hne as [His _].
      exists r. split; [apply in_or_app; right; now left |].
      split; [exact His |].
      unfold contribution, response_body, namespace in Hr.
      change ("{DAV:}" +:+ "response") with "{DAV:}response" in Hr.
      unfold is_response in His. rewrite His in Hr.
      set (K := fun k => k = Some ""
                 \/ exists h, In h (children r) /\ is_href h = true /\ text h = k).
      set (V := fun v => v = Some ""
                 \/ exists p, In p (properties r) /\ is_getetag p = true
                              /\ text p = v).
      assert (Hinv : Origin.from_document K V
                       (fold_left refprop_body (children r)
                          (Locals (Some "") (Some "") false ∅))).
      { apply refprop_loop_from_document.
        - intros h Hin Hh. right. exists h. auto.
        - intros refprop prop p Hin1 Hin2 Hin3 Hp. right. exists p.
          split; [| auto]. unfold properties.
          apply in_flat_map. exists refprop. split; [exact Hin1 |].
          apply in_flat_map. exists prop. auto.
        - split; [now left |]. split; [now left |].
          intros k' v' H'. cbn in H'. rewrite lookup_empty in H'. discriminate. }
      destruct Hinv as (_ & _ & Hm). apply (Hm k v Hr).
    + destruct IH as (r' & Hin & Hrest'); [exact Hrest | rewrite Hrest; eauto |].
      exists r'. split; [apply in_or_app; now left | exact Hrest'].
Qed.

(** *** The simple reading *)

Lemma response_body_laid_out m r :
  is_response r = true -> qualifies r = true -> Simple.laid_out r = true ->
  response_body m r
  = <[Simple.head_text r := last_getetag (Some "") (properties r)]> m.
Proof.
  intros Hr Hq Hlaid. unfold Simple.laid_out, Simple.head_text in *.
  destruct (children r) as [|h rest] eqn:Hch; [discriminate |].
  apply andb_prop in Hlaid as [Hh Hrest].
  destruct (response_loop_scan r m) as (He & Hi).
  unfold response_body, namespace.
  change ("{DAV:}" +:+ "response") with "{DAV:}response".
  unfold is_response in Hr. rewrite Hr, <- He.
  rewrite Hq in Hi. revert Hi. simpl. rewrite Hch. simpl fold_left.
  assert (Hent : entry_at m (text h)
                   (refprop_body (Locals (Some "") (Some "") false m) h)).
  { unfold refprop_body, namespace.
    change ("{DAV:}" +:+ "href") with "{DAV:}href".
    unfold is_href in Hh. rewrite Hh.
    apply prop_loop_entry_at. split; reflexivity. }
  destruct (refprop_loop_entry_at m (text h) rest _ Hrest Hent) as [_ Ha].
  intros Hi. rewrite Ha, Hi. reflexivity.
Qed.

(** X7: on a document whose vCard resources have their [href] first and
    only once, the nested loops compute what the simple reading does: one
    entry per vCard resource, its [href] text mapped to its marker, later
    resources overwriting earlier ones. *)
Theorem process_element_simple root :
  forallb (fun r => implb (is_response r && qualifies r) (Simple.laid_out r))
          (children root) = true ->
  process_element root = Simple.listing root.
Proof.
  unfold process_element, Simple.listing.
  generalize (∅ : gmap pystr pystr) as m.
  induction (children root) as [|r rs IH]; intros m Hall; [reflexivity |].
  cbn [forallb] in Hall. apply andb_prop in Hall as [Hr Hall].
  cbn [fold_left]. rewrite <- (IH _ Hall). f_equal.
  unfold Simple.entry.
  destruct (is_response r && qualifies r) eqn:Hrq.
  - apply andb_prop in Hrq as [H1 H2]. cbn [implb] in Hr.
    now apply response_body_laid_out.
  - rewrite response_body_union, (contribution_empty r Hrq).
    apply (left_id_L ∅ (∪)).
Qed.

End ListingMore.

Lemma only_responses_count_witness :
  Props.process_element Sample.twice_and_more
  = Props.process_element Sample.twice.
Proof. exact (only_responses_count Sample.twice_and_more Sample.twice eq_refl). Defined.

Lemma last_response_wins_witness :
  Props.process_element Sample.twice !! Some "/a.vcf"
  = Props.contribution (Sample.vcard "/a.vcf" "new") !! Some "/a.vcf".
Proof.
  apply (last_response_wins Sample.twice
           [Sample.vcard "/a.vcf" "old"; Sample.collection "/"]
           (Sample.vcard "/a.vcf" "new") [Sample.vcard "/b.vcf" "b1"]).
  - reflexivity.
  - intros r' [<- | []]. vm_compute. reflexivity.
  - vm_compute. eauto.
Defined.

Lemma entries_come_from_document_witness :
  exists r, In r (children Sample.twice) /\ Props.is_response r = true
    /\ (Some "/b.vcf" = Some ""
        \/ exists h, In h (children r) /\ Props.is_href h = true
                     /\ text h = Some "/b.vcf")
    /\ (Some "b1" = Some ""
        \/ exists p, In p (Props.properties r) /\ Props.is_getetag p = true
                     /\ text p = Some "b1").
Proof.
  apply (entries_come_from_document Sample.twice (Some "/b.vcf") (Some "b1")).
  vm_compute. reflexivity.
Defined.

Lemma process_element_simple_witness :
  Props.process_element Sample.twice = Simple.listing Sample.twice.
Proof. exact (process_element_simple Sample.twice eq_refl). Defined.

(** ** The client: outcomes and what goes on the wire *)

Section ClientMore.
Context `{Collaborators}.
Import PyCardDAV.
Local Open Scope list_scope.

Implicit Types (self : t) (w : world) (etag : pystr).
Implicit Types (card vref : string).

Ltac step :=
  unfold get_abook;
  unfold update_vcard, delete_vcard, _get_xml_props, _process_xml_props,
         get_vcard, _check_write_support, http, headers;
  unfold bind, ret, raise, emit.

(** X10: a delete with write support sends one DELETE; it returns
    normally when the answer is ok and raises [Exception] with the reason
    and the body of the answer when it is not; an error of the transport
    is passed on. *)
Theorem delete_vcard_outcome self vref etag w :
  write_support self = true ->
  let base := <[ "content-type" := "text/vcard" ]> (default_headers self) in
  let rq := Request DELETE (url_base self +:+ vref)
                    (match etag with
                     | Some e => <[ "If-Match" := e ]> base
                     | None => base
                     end)
                    None (settings_auth self) (settings_verify self) in
  let answer := fst (handle rq (server w)) in
  fst (delete_vcard self vref etag w)
  = match answer with
    | inl e => inl (RequestException e)
    | inr rs => if ok rs then inr tt
                else inl (Exception (reason rs) (content rs))
    end
  /\ events (snd (delete_vcard self vref etag w)) = events w ++ [Sent rq answer].
Proof.
  intros Hws base rq answer. step. rewrite Hws. cbv iota beta.
  change (Request DELETE _ _ _ _ _) with rq. rewrite send_spec. fold answer.
  destruct answer as [e | rs]; [split; reflexivity |].
  destruct (ok rs); split; reflexivity.
Qed.

(** X11: a fetch needs no write support; it sends one GET for the base
    URL followed by the path and returns the body of the answer whether
    the answer is ok or not. *)
Theorem get_vcard_outcome self vref w :
  let rq := Request GET (url_base self +:+ vref) (default_headers self) None
                    (settings_auth self) (settings_verify self) in
  let answer := fst (handle rq (server w)) in
  fst (get_vcard self vref w)
  = match answer with
    | inl e => inl (RequestException e)
    | inr rs => inr (content rs)
    end
  /\ events (snd (get_vcard self vref w)) = events w ++ [Sent rq answer].
Proof.
  intros rq answer. step. change (Request GET _ _ _ _ _) with rq.
  rewrite send_spec. fold answer.
  destruct answer as [e | rs]; split; reflexivity.
Qed.

Lemma last_sent (evs : list event)
    (attempts : list (request * (transport_error + response))) :
  attempts <> [] ->
  last (evs ++ map sent attempts) = sent <$> last attempts.
Proof.
  intros Hne. induction attempts as [|a attempts IH] using rev_ind;
    [congruence |].
  rewrite map_app, app_assoc. cbn [map]. now rewrite !last_snoc.
Qed.

(** X12: a create call ends in the pair it returns, in [UploadFailed] or
    in the error of the transport, and in the last exactly when the last
    request of the call met that error: an attempt that fails in the
    transport is not repeated. *)
Theorem upload_transport_failure self card w :
  write_support self = true ->
  (forall e,
     fst (upload_new_card self card w) = inl (RequestException e) <->
     exists rq, last (events (snd (upload_new_card self card w)))
                = Some (Sent rq (inl e)))
  /\ ((exists result, fst (upload_new_card self card w) = inr result)
      \/ (exists why, fst (upload_new_card self card w) = inl (UploadFailed why))
      \/ (exists e, fst (upload_new_card self card w) = inl (RequestException e))).
Proof.
  intros Hws. rewrite (upload_new_card_spec self card w Hws). cbn [fst snd].
  destruct (upload_loop_run self card [0; 1; 2; 3; 4] None w)
    as (attempts & Hev & _ & _ & Hres).
  rewrite Hev.
  destruct (fst (for_each [0; 1; 2; 3; 4] (upload_round self card) None w))
    as [exn | [result | response]].
  - destruct Hres as (rq & e & Hl & ->).
    assert (Hne : attempts <> []) by (intros ->; discriminate).
    rewrite (last_sent _ _ Hne), Hl. split; [| eauto].
    intros e'. split.
    + intros Heq. injection Heq as <-. exists rq. reflexivity.
    + intros (rq' & Heq). cbn in Heq. unfold sent in Heq. cbn in Heq. congruence.
  - destruct Hres as (rq & rs & Hl & _).
    assert (Hne : attempts <> []) by (intros ->; discriminate).
    rewrite (last_sent _ _ Hne), Hl. split; [| eauto].
    intros e. split; [discriminate |].
    intros (rq' & Heq). cbn in Heq. unfold sent in Heq. cbn in Heq. congruence.
  - destruct Hres as [Hn Hl].
    assert (Hne : attempts <> []) by (intros ->; discriminate).
    rewrite (last_sent _ _ Hne).
    destruct (last attempts) as [[rq a] |] eqn:Hlast;
      [| apply last_None in Hlast; contradiction].
    destruct Hl as (rs & -> & _ & ->). split; [| eauto].
    intros e. split; [discriminate |].
    intros (rq' & Heq). cbn in Heq. unfold sent in Heq. cbn in Heq. congruence.
Qed.

(** The events of a listing: the request, then what is not a request. *)
Lemma get_abook_events self w :
  let rq := Request PROPFIND (url_resource self)
                    (<[ "Depth" := "1" ]> (default_headers self)) None
                    (settings_auth self) (settings_verify self) in
  exists rest,
    events (snd (get_abook self w))
    = events w ++ Sent rq (fst (handle rq (server w))) :: rest
    /\ Wire.silent rest.
Proof.
  intros rq.
  step. cbv beta zeta. fold rq. rewrite send_spec.
  destruct (fst (handle rq (server w))) as [e | rs].
  - exists []. split; [reflexivity | constructor].
  - cbn [fst snd]. cbv beta iota.
    destruct (header_get (resp_headers rs) "DAV") as [dav |].
    + destruct (count dav "addressbook" =? 0).
      * eexists. cbn. rewrite <- app_assoc. split; [reflexivity |].
        repeat constructor.
      * cbn. destruct (XML (content rs)); cbn; eexists; rewrite <- app_assoc;
          (split; [reflexivity | repeat constructor]).
    + eexists. cbn. rewrite <- app_assoc. split; [reflexivity |].
      repeat constructor.
Qed.

(** X13: a listing needs no write support and sends exactly one request
    whatever its outcome: a PROPFIND for the collection with [Depth: 1]. *)
Theorem get_abook_request self w :
  let rq := Request PROPFIND (url_resource self)
                    (<[ "Depth" := "1" ]> (default_headers self)) None
                    (settings_auth self) (settings_verify self) in
  req_headers rq !! "Depth" = Some "1"
  /\ exists rest,
       events (snd (get_abook self w))
       = events w ++ Sent rq (fst (handle rq (server w))) :: rest
       /\ Wire.silent rest.
Proof.
  intros rq. split; [apply lookup_insert_eq |]. apply get_abook_events.
Qed.

(** *** What every request carries *)

Lemma stamped_headers (d : gmap string string) (k1 k2 v1 v2 k : string) :
  In k1 Wire.operation_keys -> In k2 Wire.operation_keys ->
  ~ In k Wire.operation_keys ->
  <[ k1 := v1 ]> (<[ k2 := v2 ]> d) !! k = d !! k.
Proof.
  intros H1 H2 Hk.
  rewrite !lookup_insert_ne; [reflexivity | |]; intros <-; contradiction.
Qed.

Lemma stamped_write self (m : method) (target : string) (body : pystr) etag answer :
  m = PUT \/ m = DELETE ->
  Wire.stamped self
    (Sent (Request m target
             (match etag with
              | Some e => <[ "If-Match" := e ]>
                            (<[ "content-type" := "text/vcard" ]> (default_headers self))
              | None => <[ "content-type" := "text/vcard" ]> (default_headers self)
              end)
             body (settings_auth self) (settings_verify self))
          answer).
Proof.
  intros Hm. cbn. split; [reflexivity |]. split; [reflexivity |]. split.
  - intros k Hk. destruct etag as [e |].
    + apply stamped_headers; [cbn; auto | cbn; auto | exact Hk].
    + rewrite lookup_insert_ne; [reflexivity |].
      intros <-. apply Hk. cbn; auto.
  - assert (Hct : match etag with
                  | Some e => <[ "If-Match" := e ]>
                                (<[ "content-type" := "text/vcard" ]> (default_headers self))
                  | None => <[ "content-type" := "text/vcard" ]> (default_headers self)
                  end !! "content-type" = Some "text/vcard").
    { destruct etag; [rewrite lookup_insert_ne by discriminate |];
        apply lookup_insert_eq. }
    destruct Hm as [-> | ->]; exact Hct.
Qed.

(** X14: every request a client sends, in any of its five operations,
    carries the credentials and the [verify] setting of the client and
    its default headers; the operations add only [content-type],
    [If-Match], [If-None-Match] and [Depth], and every PUT and DELETE has
    the content type [text/vcard]. *)
Theorem requests_stamped self card vref etag w :
  (exists evs, events (snd (get_vcard self vref w)) = events w ++ evs
               /\ Forall (Wire.stamped self) evs)
  /\ (exists evs, events (snd (update_vcard self card vref etag w)) = events w ++ evs
                  /\ Forall (Wire.stamped self) evs)
  /\ (exists evs, events (snd (delete_vcard self vref etag w)) = events w ++ evs
                  /\ Forall (Wire.stamped self) evs)
  /\ (exists evs, events (snd (upload_new_card self card w)) = events w ++ evs
                  /\ Forall (Wire.stamped self) evs)
  /\ (exists evs, events (snd (get_abook self w)) = events w ++ evs
                  /\ Forall (Wire.stamped self) evs).
Proof.
  split; [| split; [| split; [| split]]].
  - step. rewrite send_spec.
    match goal with |- context [Sent ?q ?a] =>
      exists [Sent q a]; split; [destruct a; reflexivity |] end.
    constructor; [| constructor]. cbn. repeat split; reflexivity.
  - step. destruct (write_support self).
    + cbv iota beta. rewrite send_spec.
      match goal with |- context [Sent ?q ?a] =>
        exists [Sent q a]; split;
          [destruct a; reflexivity |] end.
      constructor; [| constructor]. apply stamped_write. now left.
    + eexists. split; [reflexivity |]. repeat constructor.
  - step. destruct (write_support self).
    + cbv iota beta. rewrite send_spec.
      match goal with |- context [Sent ?q ?a] =>
        exists [Sent q a]; split;
          [destruct a as [e | rs]; [reflexivity | destruct (ok rs); reflexivity] |]
      end.
      constructor; [| constructor]. apply stamped_write. now right.
    + eexists. split; [reflexivity |]. repeat constructor.
  - destruct (write_support self) eqn:Hws.
    + rewrite (upload_new_card_spec self card w Hws). cbn [snd].
      destruct (upload_loop_run self card [0; 1; 2; 3; 4] None w)
        as (attempts & Hev & _ & Hreq & _).
      exists (map sent attempts). split; [exact Hev |].
      apply List.Forall_forall. intros ev Hin.
      apply in_map_iff in Hin as ([rq a] & <- & Hin).
      apply list_elem_of_In, list_elem_of_lookup in Hin as [i Hi].
      destruct (Hreq i rq a Hi) as [-> _].
      unfold sent, upload_request. cbn. repeat split.
      * intros k Hk. apply stamped_headers; [cbn; auto | cbn; auto | exact Hk].
      * rewrite lookup_insert_ne by discriminate. apply lookup_insert_eq.
    + unfold upload_new_card, _check_write_support, bind, raise, emit.
      rewrite Hws. eexists. split; [reflexivity |]. repeat constructor.
  - destruct (get_abook_events self w) as (rest & Hev & Hrest).
    eexists. split; [exact Hev |]. constructor.
    + cbn. repeat split. intros k Hk.
      rewrite lookup_insert_ne; [reflexivity |].
      intros <-. apply Hk. cbn; auto.
    + eapply List.Forall_impl; [| exact Hrest].
      intros ev. destruct ev; cbn; tauto.
Qed.

End ClientMore.

(** ** The parser: an [href] that follows the properties *)

Section LateHref.
Import Props.

Implicit Types (l : locals) (m : gmap pystr pystr) (k : pystr).
Implicit Types (r h : element) (rs pre post : list element).

(** Once [insert] is up and [href] is [k], every [prop] element rewrites
    the entry under [k]. *)
Lemma prop_loop_rewrites m k (props : list element) l :
  href l = k -> Props.insert l = true ->
  (abook l = m \/ abook l = <[k := etag l]> m) ->
  let l' := fold_left prop_body props l in
  href l' = k /\ Props.insert l' = true
  /\ (abook l' = <[k := etag l']> m \/ (props = [] /\ l' = l)).
Proof.
  revert l; induction props as [|prop props IH]; intros l Hh Hi Ha; cbn.
  - auto.
  - assert (Hstep : href (prop_body l prop) = k
                    /\ Props.insert (prop_body l prop) = true
                    /\ abook (prop_body l prop)
                       = <[k := etag (prop_body l prop)]> m).
    { rewrite prop_body_spec. cbn. rewrite Hi, Hh. cbn.
      repeat split.
      destruct Ha as [-> | ->]; [reflexivity | apply insert_insert_eq]. }
    destruct Hstep as (Hh' & Hi' & Ha').
    destruct (IH (prop_body l prop) Hh' Hi' (or_intror Ha'))
      as (Hh2 & Hi2 & [Ha2 | [-> Heq]]).
    + auto.
    + cbn. auto.
Qed.

Lemma refprop_loop_rewrites m k rs l :
  forallb (fun refprop => negb (is_href refprop)) rs = true ->
  href l = k -> Props.insert l = true ->
  (abook l = m \/ abook l = <[k := etag l]> m) ->
  let l' := fold_left refprop_body rs l in
  href l' = k /\ Props.insert l' = true
  /\ (abook l' = <[k := etag l']> m
      \/ (flat_map children rs = [] /\ l' = l)).
Proof.
  revert l; induction rs as [|refprop rs IH]; intros l Hrs Hh Hi Ha.
  - cbn. auto.
  - cbn [forallb] in Hrs. apply andb_prop in Hrs as [Hr Hrs].
    cbn [fold_left flat_map].
    assert (Hbody : refprop_body l refprop
                    = fold_left prop_body (children refprop) l).
    { unfold refprop_body, namespace.
      change ("{DAV:}" +:+ "href") with "{DAV:}href".
      unfold is_href in Hr.
      destruct (String.eqb (tag refprop) "{DAV:}href"); [discriminate | reflexivity]. }
    rewrite Hbody.
    destruct (prop_loop_rewrites m k (children refprop) l Hh Hi Ha)
      as (Hh1 & Hi1 & Ha1).
    destruct Ha1 as [Ha1 | [Hnil Heq]].
    + destruct (IH _ Hrs Hh1 Hi1 (or_intror Ha1)) as (Hh2 & Hi2 & [Ha2 | [_ ->]]);
        auto.
    + rewrite Heq, Hnil.
      destruct (IH l Hrs Hh Hi Ha) as (Hh2 & Hi2 & [Ha2 | [Hnil' ->]]); auto.
Qed.

(** X15: a resource whose [href] comes after the properties that qualify
    it leaves two entries: one under the empty string with the marker
    seen before the [href], and, when a [prop] element follows, one under
    the [href] text with the last marker. *)
Theorem href_after_properties m r pre h post :
  is_response r = true ->
  children r = (pre ++ h :: post)%list ->
  forallb (fun refprop => negb (is_href refprop)) pre = true ->
  existsb is_vcard_type
    (flat_map (fun refprop => flat_map children (children refprop)) pre) = true ->
  is_href h = true ->
  forallb (fun refprop => negb (is_href refprop)) post = true ->
  flat_map children (h :: post) <> [] ->
  response_body m r
  = <[text h := last_getetag (Some "") (properties r)]>
      (<[Some "" := last_getetag (Some "")
                      (flat_map (fun refprop => flat_map children (children refprop))
                                pre)]> m).
Proof.
  intros Hr Hch Hpre Hq Hh Hpost Hsome.
  destruct (response_loop_scan r m) as (He & _).
  unfold response_body, namespace.
  change ("{DAV:}" +:+ "response") with "{DAV:}response".
  unfold is_response in Hr. rewrite Hr, <- He. cbn zeta.
  rewrite Hch, fold_left_app.
  set (l0 := Locals (Some "") (Some "") false m).
  destruct (refprop_loop_scan pre l0) as (He1 & Hi1). cbn zeta in He1, Hi1.
  destruct (refprop_loop_entry_at m (Some "") pre l0 Hpre) as [Hh1 Ha1];
    [split; reflexivity |].
  set (l1 := fold_left refprop_body pre l0) in *.
  rewrite Hq in Hi1. cbn in Hi1. rewrite Hi1, He1 in Ha1. cbn in He1.
  set (m1 := <[Some "" := _]> m) in *.
  cbn [fold_left].
  assert (Hbody : refprop_body l1 h
                  = fold_left prop_body (children h)
                      (Locals (text h) (etag l1) true m1)).
  { unfold refprop_body, namespace.
    change ("{DAV:}" +:+ "href") with "{DAV:}href".
    unfold is_href in Hh. now rewrite Hh, Hi1, Ha1. }
  rewrite Hbody.
  destruct (prop_loop_rewrites m1 (text h) (children h)
              (Locals (text h) (etag l1) true m1) eq_refl eq_refl
              (or_introl eq_refl)) as (Hh2 & Hi2 & Ha2).
  set (l2 := fold_left prop_body (children h) _) in *.
  destruct Ha2 as [Ha2 | [Hnil Heq]].
  - destruct (refprop_loop_rewrites m1 (text h) post l2 Hpost Hh2 Hi2
                (or_intror Ha2)) as (_ & _ & [Ha3 | [_ ->]]); assumption.
  - destruct (refprop_loop_rewrites m1 (text h) post l2 Hpost Hh2 Hi2)
      as (_ & _ & [Ha3 | [Hnil' _]]).
    + left. rewrite Heq. reflexivity.
    + exact Ha3.
    + exfalso. apply Hsome. cbn [flat_map]. now rewrite Hnil, Hnil'.
Qed.

End LateHref.

Lemma href_after_properties_witness :
  Props.response_body ∅ Sample.href_late
  = <[ Some "/late.vcf" := Some "e1" ]> (<[ Some "" := Some "e1" ]> ∅).
Proof.
  exact (href_after_properties ∅ Sample.href_late
           [Sample.propstat [Sample.leaf "getcontenttype" (Some "text/vcard");
                             Sample.leaf "getetag" (Some "e1")]]
           (Sample.leaf "href" (Some "/late.vcf"))
           [Sample.propstat [Sample.leaf "displayname" (Some "Late")]]
           eq_refl eq_refl eq_refl eq_refl eq_refl eq_refl
           ltac:(discriminate)).
Defined.

(** ** The further properties on the stand-in collaborators *)

Lemma write_gate_witness :
  PyCardDAV.upload_new_card (H := Fixture.collaborators)
    Fixture.read_only_client "BEGIN:VCARD" (Fixture.world_with [])
  = (inl (SystemExit 1),
     World (H := Fixture.collaborators) [] 12345
       [StderrWrite "Sorry, no write support for you. Please check the documentation.
"]).
Proof.
  exact (proj2 (proj2 (write_gate (H := Fixture.collaborators)
                         Fixture.read_only_client "BEGIN:VCARD" "/a.vcf" None
                         (Fixture.world_with []) eq_refl))).
Defined.

Lemma get_abook_parses_witness :
  fst (PyCardDAV.get_abook (H := Fixture.collaborators) Fixture.client
         (Fixture.world_with
            [inr (Fixture.multistatus [("DAV", "1, 2, addressbook")]
                                      Fixture.listing)]))
  = match XML (Collaborators := Fixture.collaborators)
            (content (Fixture.multistatus [("DAV", "1, 2, addressbook")]
                                          Fixture.listing)) with
    | inl message => inl (XMLSyntaxError message)
    | inr element => inr (Props.process_element element)
    end.
Proof.
  refine (proj2 (get_abook_parses (H := Fixture.collaborators) Fixture.client
                   (Fixture.world_with
                      [inr (Fixture.multistatus [("DAV", "1, 2, addressbook")]
                                                Fixture.listing)])
                   (Fixture.multistatus [("DAV", "1, 2, addressbook")]
                                        Fixture.listing)
                   [] "1, 2, addressbook" _ _ _)).
  - vm_compute. reflexivity.
  - vm_compute. reflexivity.
  - exists "1, 2, ", "". reflexivity.
Defined.

Lemma delete_vcard_outcome_witness :
  fst (PyCardDAV.delete_vcard (H := Fixture.collaborators) Fixture.client
         "/dav/abook/a.vcf" (Some "stale")
         (Fixture.world_with [inr Fixture.precondition_failed]))
  = inl (Exception "Precondition Failed" "").
Proof.
  exact (proj1 (delete_vcard_outcome (H := Fixture.collaborators) Fixture.client
                  "/dav/abook/a.vcf" (Some "stale")
                  (Fixture.world_with [inr Fixture.precondition_failed])
                  eq_refl)).
Defined.

Lemma upload_transport_failure_witness :
  fst (PyCardDAV.upload_new_card (H := Fixture.collaborators) Fixture.client
         "BEGIN:VCARD"
         (Fixture.world_with [inr Fixture.precondition_failed; inl SSLError;
                              inr Fixture.created]))
  = inl (RequestException SSLError).
Proof.
  apply (proj1 (upload_transport_failure (H := Fixture.collaborators)
                  Fixture.client "BEGIN:VCARD"
                  (Fixture.world_with [inr Fixture.precondition_failed;
                                       inl SSLError; inr Fixture.created])
                  eq_refl)).
  eexists. vm_compute. reflexivity.
Defined.

(** ** Create, then fetch *)

Section CreateThenFetch.
Context `{Collaborators}.
Import PyCardDAV.
Local Open Scope list_scope.

(** X16: the path a create call returns leads back to the new card: when
    [urlparse] splits the URL of the accepted PUT into the scheme and
    host of the collection and a path, the base URL of the client
    followed by the returned path is that URL, which is where a fetch,
    update or delete of the returned path goes. *)
Theorem created_path_addresses_card
    (resource debug user passwd card : string) (verify : bool) (w : world)
    (evs : list event) (rq : request) (rs : response) :
  let self := init resource debug user passwd verify true in
  events (snd (upload_new_card self card w)) = events w ++ evs ->
  In (Sent rq (inr rs)) evs -> ok rs = true ->
  scheme (urlparse (url rq)) = scheme (urlparse resource) ->
  netloc (urlparse (url rq)) = netloc (urlparse resource) ->
  (scheme (urlparse (url rq)) +:+ "://" +:+ netloc (urlparse (url rq)))
    +:+ path (urlparse (url rq)) = url rq ->
  exists p marker,
    fst (upload_new_card self card w) = inr (p, marker)
    /\ url_base self +:+ p = url rq
    /\ forall w', exists answer,
         events (snd (get_vcard self p w'))
         = events w' ++ [Sent (Request GET (url rq) (default_headers self) None
                                       (user, passwd) verify) answer].
Proof.
  intros self Hev Hin Hok Hs Hn Hu.
  rewrite (upload_new_card_spec self card w eq_refl) in *. cbn [fst snd] in *.
  destruct (upload_loop_run self card [0; 1; 2; 3; 4] None w)
    as (attempts & Hev' & _ & Hreq & Hres).
  rewrite Hev' in Hev. apply app_inv_head in Hev. subst evs.
  apply in_map_iff in Hin as ([rq' a] & Heq & Hin).
  unfold sent in Heq. cbn in Heq. injection Heq as -> ->.
  apply list_elem_of_In, list_elem_of_lookup in Hin as [i Hi].
  assert (Hlast : last attempts = Some (rq, inr rs)).
  { rewrite last_lookup.
    pose proof (lookup_lt_Some _ _ _ Hi) as Hlt.
    destruct (Hreq i _ _ Hi) as [_ Hrej].
    destruct (Nat.eq_dec i (pred (length attempts))) as [<- | Hne];
      [exact Hi |].
    destruct Hrej as (rs' & Heq & Hno); [lia |].
    injection Heq as <-. congruence. }
  destruct (fst (for_each [0; 1; 2; 3; 4] (upload_round self card) None w))
    as [exn | [result | response]].
  - destruct Hres as (rq' & e & Hl & _). congruence.
  - destruct Hres as (rq' & rs' & Hl & _ & ->).
    rewrite Hlast in Hl. injection Hl as <- <-.
    assert (Hbase : url_base self +:+ path (urlparse (url rq)) = url rq).
    { unfold self, init. cbn [url_base]. now rewrite <- Hs, <- Hn. }
    exists (path (urlparse (url rq))), (marker_of rs).
    split; [reflexivity |]. split; [exact Hbase |].
    intros w'. unfold get_vcard, http, headers, bind, ret.
    rewrite Hbase, send_spec.
    set (q := Request GET (url rq) (default_headers self) None
                      (settings_auth self) (settings_verify self)).
    exists (fst (handle q (server w'))).
    destruct (fst (handle q (server w'))); reflexivity.
  - destruct Hres as [_ Hl]. rewrite Hlast in Hl.
    destruct Hl as (rs' & Heq & Hno & _). injection Heq as <-. congruence.
Qed.

End CreateThenFetch.

Lemma created_path_addresses_card_witness :
  exists p marker,
    fst (PyCardDAV.upload_new_card (H := Fixture.collaborators) Fixture.client
           "BEGIN:VCARD"
           (Fixture.world_with [inr Fixture.precondition_failed;
                                inr Fixture.created]))
    = inr (p, marker)
    /\ PyCardDAV.url_base Fixture.client +:+ p
       = "http://localhost:8080/dav/abook/56651C2C-DAA96F5-421F1C8A.vcf".
Proof.
  destruct (created_path_addresses_card (H := Fixture.collaborators)
              "http://localhost:8080/dav/abook" "" "user" "secret"
              "BEGIN:VCARD" true
              (Fixture.world_with [inr Fixture.precondition_failed;
                                   inr Fixture.created])
              (events (snd (PyCardDAV.upload_new_card (H := Fixture.collaborators)
                              Fixture.client "BEGIN:VCARD"
                              (Fixture.world_with
                                 [inr Fixture.precondition_failed;
                                  inr Fixture.created]))))
              (PyCardDAV.upload_request Fixture.client "BEGIN:VCARD"
                 (Href.nth_href Href.lcg_randint 1 12345))
              Fixture.created)
    as (p & marker & Hres & Hurl & _).
  - reflexivity.
  - right. left. vm_compute. reflexivity.
  - reflexivity.
  - vm_compute. reflexivity.
  - vm_compute. reflexivity.
  - vm_compute. reflexivity.
  - exists p, marker. split; [exact Hres |].
    etransitivity; [exact Hurl | vm_compute; reflexivity].
Defined.

(** ** The marker of a resource in the returned mapping *)

Section MarkerInListing.
Import Props.

Implicit Types (m : gmap pystr pystr) (k v : pystr).
Implicit Types (p r root h : element) (ps rs pre post rest : list element).

(** An entry a resource writes is in the returned mapping unless a later
    resource writes the same key. *)
Lemma entry_kept root pre r post k v :
  children root = (pre ++ r :: post)%list ->
  contribution r !! k = Some v ->
  (forall r', In r' post -> contribution r' !! k = None) ->
  process_element root !! k = Some v.
Proof.
  intros Hch Hv Hpost. unfold process_element.
  rewrite Hch, fold_left_app. cbn [fold_left].
  rewrite (response_loop_untouched post _ k Hpost), response_body_union.
  now apply lookup_union_Some_l.
Qed.

(** C7 (amended): the marker of an included resource is the text of its
    last nested [getetag] property as lxml gives it ([None] for an empty
    element), and the empty string when it has no such property.  The
    resource writes an entry with that marker, and the returned mapping
    holds this entry unless a later [response] element of the document
    writes the same key.  When the first child of the resource is its
    [href] and no other child is one, this is the only entry the resource
    writes, and its key is the text of the [href]. *)
Theorem listing_marker root pre r post :
  children root = (pre ++ r :: post)%list ->
  is_response r = true -> qualifies r = true ->
  let marker := last_getetag (Some "") (properties r) in
  (exists k,
     contribution r !! k = Some marker
     /\ ((forall r', In r' post -> contribution r' !! k = None) ->
         process_element root !! k = Some marker))
  /\ (forall h rest,
        children r = h :: rest -> is_href h = true ->
        forallb (fun refprop => negb (is_href refprop)) rest = true ->
        contribution r = {[ text h := marker ]}
        /\ ((forall r', In r' post -> contribution r' !! text h = None) ->
            process_element root !! text h = Some marker))
  /\ (forallb (fun p => negb (is_getetag p)) (properties r) = true ->
      marker = Some "")
  /\ (forall ps p qs,
        properties r = (ps ++ p :: qs)%list -> is_getetag p = true ->
        forallb (fun q => negb (is_getetag q)) qs = true ->
        marker = text p).
Proof.
  intros Hch Hr Hq marker. split; [| split; [| split]].
  - destruct (marker_written ∅ r Hr Hq) as [k Hk].
    exists k. split; [exact Hk |].
    intros Hpost. exact (entry_kept root pre r post k marker Hch Hk Hpost).
  - intros h rest Hkids Hh Hrest.
    assert (Hlaid : Simple.laid_out r = true).
    { unfold Simple.laid_out. rewrite Hkids, Hh, Hrest. reflexivity. }
    assert (Hone : contribution r = {[ text h := marker ]}).
    { unfold contribution.
      rewrite (response_body_laid_out ∅ r Hr Hq Hlaid).
      unfold Simple.head_text. rewrite Hkids. apply insert_empty. }
    split; [exact Hone |].
    intros Hpost. apply (entry_kept root pre r post _ _ Hch); [| exact Hpost].
    rewrite Hone. apply lookup_singleton_eq.
  - apply last_getetag_none.
  - intros ps p qs Hps Hp Hqs. subst marker. rewrite Hps.
    now apply last_getetag_last.
Qed.

End MarkerInListing.

Lemma listing_marker_witness :
  Props.contribution (Sample.vcard "/a.vcf" "new")
  = {[ Some "/a.vcf" := Some "new" ]}
  /\ Props.process_element Sample.twice !! Some "/a.vcf" = Some (Some "new").
Proof.
  destruct (listing_marker Sample.twice
              [Sample.vcard "/a.vcf" "old"; Sample.collection "/"]
              (Sample.vcard "/a.vcf" "new") [Sample.vcard "/b.vcf" "b1"]
              eq_refl eq_refl eq_refl) as (_ & Hlaid & _).
  destruct (Hlaid (Sample.leaf "href" (Some "/a.vcf"))
              [Sample.propstat [Sample.leaf "getcontenttype" (Some "text/vcard");
                                Sample.leaf "getetag" (Some "new")]]
              eq_refl eq_refl eq_refl) as [Hone Hkept].
  split; [exact Hone |].
  apply Hkept. intros r' [<- | []]. vm_compute. reflexivity.
Defined.

(** The same path listed twice: the marker of the first listing is not in
    the returned mapping. *)
Lemma overwritten_marker_absent :
  Props.qualifies (Sample.vcard "/a.vcf" "old") = true
  /\ Props.process_element Sample.twice
     = <[ Some "/a.vcf" := Some "new" ]> (<[ Some "/b.vcf" := Some "b1" ]> ∅).
Proof. split; vm_compute; reflexivity. Qed.
